(** * tsuru provisioners: deployment pipeline, node containers, container ip

    A shallow embedding of three source files of the repository

      - [provision/swarm/actions.go]           (module [Swarm])
      - [provision/kubernetes/nodecontainer.go] (module [Kubernetes])
      - [provision/docker/docker.go]           (module [Docker])

    External systems (the swarm cluster, the kubernetes API server, the
    docker binary) are explicit state that every operation threads through;
    Go maps are [gmap]s, Go sets are [gset]s, and a value that Go can hold
    as [nil] is an [option]. *)

From Stdlib Require Import Ascii.
From stdpp Require Import gmap strings list sorting pretty.

Open Scope string_scope.

(** ** Go errors *)

(** The [error] values that occur in the three files: [errors.New]
    (the standard library's [*errors.errorString]), an error handed back by
    a collaborator (swarm, docker binary, configuration, JSON codec), a
    kubernetes API status error with its reason, and the stack-carrying
    wrapper of [github.com/pkg/errors]. *)
Inductive error : Type :=
  | errorString (msg : string)
  | foreignError (origin : string) (msg : string)
  | statusError (reason : string) (msg : string)
  | withStack (cause : error).

Global Instance error_eq_dec : EqDecision error.
Proof. solve_decision. Defined.

(** [errors.WithStack]: [nil] stays [nil]. *)
Definition errors_WithStack (err : option error) : option error :=
  withStack <$> err.

(** [errors.Wrap(err, msg)] for a non-nil [err]; the message layer is kept
    with the wrapper. *)
Definition errors_Wrap (err : error) (msg : string) : error :=
  withStack err.

(** The innermost error below the wrappers ([errors.Cause]). *)
Fixpoint errors_Cause (e : error) : error :=
  match e with
  | withStack c => errors_Cause c
  | _ => e
  end.

(** The dynamic type of an error value, wrappers included. *)
Inductive errorKind : Type :=
  | KErrorString
  | KForeign (origin : string)
  | KStatusError
  | KWithStack.

Definition kindOf (e : error) : errorKind :=
  match e with
  | errorString _ => KErrorString
  | foreignError o _ => KForeign o
  | statusError _ _ => KStatusError
  | withStack _ => KWithStack
  end.

Definition messageOf (e : error) : string :=
  match errors_Cause e with
  | errorString m => m
  | foreignError _ m => m
  | statusError _ m => m
  | withStack _ => ""
  end.

(** * provision/swarm/actions.go *)

Module Swarm.

(** ** Data *)

(** [image.ImageMetadata]: only the process table is used here; it maps a
    process name to its command. *)
Record ImageMetadata : Type := mkImageMetadata {
  Processes : gmap string string
}.

(** [pipelineArgs]. The [client] field is the handle to the cluster, which
    is the [Cluster] state threaded through every operation; [app] is
    represented by what the file uses of it, its name. *)
Record pipelineArgs : Type := mkPipelineArgs {
  app : string;
  newImage : string;
  newImgData : ImageMetadata;
  currentImage : string;
  currentImgData : ImageMetadata
}.

(** Requests sent to the collaborators of this file. *)
Inductive Call : Type :=
  | CallDeploy (appName process image : string)
  | CallRemoveService (appName process : string)
  | CallAppendAppImageName (appName image : string).

Global Instance Call_eq_dec : EqDecision Call.
Proof. solve_decision. Defined.

(** The world outside the file: the Services of the swarm cluster, one per
    (app, process) pair and bound to an image; the image history of the
    metadata store; the requests received so far, oldest first; the lines
    written to the log; and the fault plan, which says for each request
    whether the collaborator rejects it at this moment, and with which
    error. The collaborators may answer differently later on: [set_faults]
    is the cluster at such a later moment. *)
Record Cluster : Type := mkCluster {
  services : gmap (string * string) string;
  imageHistory : list (string * string);
  calls : list Call;
  logs : list (string * list string);
  faults : Call → option error
}.

Definition record_call (c : Call) (w : Cluster) : Cluster :=
  {| services := services w; imageHistory := imageHistory w;
     calls := calls w ++ [c]; logs := logs w; faults := faults w |}.

Definition set_services (s : gmap (string * string) string) (w : Cluster) : Cluster :=
  {| services := s; imageHistory := imageHistory w;
     calls := calls w; logs := logs w; faults := faults w |}.

(** The cluster at a later moment, when its collaborators follow the fault
    plan [plan]: the Services, the history, the requests received and the
    log are what they were. *)
Definition set_faults (plan : Call → option error) (w : Cluster) : Cluster :=
  {| services := services w; imageHistory := imageHistory w;
     calls := calls w; logs := logs w; faults := plan |}.

Definition push_image (a img : string) (w : Cluster) : Cluster :=
  {| services := services w; imageHistory := imageHistory w ++ [(a, img)];
     calls := calls w; logs := logs w; faults := faults w |}.

(** [log.Errorf]: one more line in the log, kept as the format string and
    its arguments. *)
Definition log_Errorf (format : string) (arguments : list string)
    (w : Cluster) : Cluster :=
  {| services := services w; imageHistory := imageHistory w;
     calls := calls w; logs := logs w ++ [(format, arguments)];
     faults := faults w |}.

(** The processes of app [a] that have a running Service. *)
Definition running (a : string) (w : Cluster) : gset string :=
  set_map snd (filter (λ k : string * string, k.1 = a) (dom (services w))).

(** ** The Service Convergence Engine *)

(** Modelled from the spec: [deploy] is defined in another file of the
    package. It ensures that a Service for (app, process) runs the given
    image, creating or replacing it; a rejected request leaves the Services
    as they are. *)
Definition deploy (a p img : string) (w : Cluster) : option error * Cluster :=
  let w := record_call (CallDeploy a p img) w in
  match faults w (CallDeploy a p img) with
  | Some e => (Some e, w)
  | None => (None, set_services (<[(a, p) := img]> (services w)) w)
  end.

(** Modelled from the spec: [removeService] is defined in another file of
    the package. It deletes the Service of (app, process) if present;
    absence is not an error; a rejected request leaves the Services as they
    are. *)
Definition removeService (a p : string) (w : Cluster) : option error * Cluster :=
  let w := record_call (CallRemoveService a p) w in
  match faults w (CallRemoveService a p) with
  | Some e => (Some e, w)
  | None => (None, set_services (delete (a, p) (services w)) w)
  end.

(** Modelled from the spec: [image.AppendAppImageName] belongs to the image
    metadata store. It appends the image to the history of the app. *)
Definition AppendAppImageName (a img : string) (w : Cluster) : option error * Cluster :=
  let w := record_call (CallAppendAppImageName a img) w in
  match faults w (CallAppendAppImageName a img) with
  | Some e => (Some e, w)
  | None => (None, push_image a img w)
  end.

(** ** rollbackAddedProcesses *)

Definition rollback_format : string :=
  "error rolling back updated service for %s[%s]: %+v".

Definition ignored_format : string :=
  "ignored error removing unwanted service for %s[%s]: %+v".

(** One iteration of the loop of [rollbackAddedProcesses]. *)
Definition rollbackProcess (args : pipelineArgs) (processName : string)
    (w : Cluster) : Cluster :=
  let '(err, w) :=
    if decide (is_Some (Processes (currentImgData args) !! processName))
    then deploy (app args) processName (currentImage args) w
    else removeService (app args) processName w in
  match err with
  | Some e =>
      log_Errorf rollback_format [app args; processName; messageOf e] w
  | None => w
  end.

Fixpoint rollbackAddedProcesses (args : pipelineArgs) (processes : list string)
    (w : Cluster) : Cluster :=
  match processes with
  | [] => w
  | processName :: rest =>
      rollbackAddedProcesses args rest (rollbackProcess args processName w)
  end.

(** ** The actions *)

(** [action.Result] is [interface{}]: here it is either [nil] or a
    [[]string]. *)
Definition Result : Type := option (list string).

Record FWContext : Type := mkFWContext {
  Params : pipelineArgs;
  Previous : Result
}.

Record BWContext : Type := mkBWContext {
  BWParams : pipelineArgs;
  FWResult : Result
}.

(** An [action.Action]. [Backward] is optional; running it can panic (a
    failed type assertion), which is [None]. *)
Record Action : Type := mkAction {
  Name : string;
  Forward : FWContext → Cluster → (Result + error) * Cluster;
  Backward : option (BWContext → Cluster → option Cluster)
}.

(** The keys of the process table, in the order [range] happens to visit
    them. *)
Definition rangeKeys (m : gmap string string) : list string :=
  (map_to_list m).*1.

(** [sort.Strings]: ascending byte-wise lexicographic order. *)
Definition sort_Strings (l : list string) : list string :=
  merge_sort String.le l.

(** The deployment loop of [updateServices.Forward], with its [break]:
    returns [deployedProcesses] and [err]. *)
Fixpoint deployLoop (args : pipelineArgs) (toDeploy deployed : list string)
    (w : Cluster) : list string * option error * Cluster :=
  match toDeploy with
  | [] => (deployed, None, w)
  | processName :: rest =>
      match deploy (app args) processName (newImage args) w with
      | (Some err, w) => (deployed, Some err, w)
      | (None, w) => deployLoop args rest (deployed ++ [processName]) w
      end
  end.

Definition toDeployProcesses (args : pipelineArgs) : list string :=
  sort_Strings (rangeKeys (Processes (newImgData args))).

Definition updateServices_Forward (ctx : FWContext) (w : Cluster)
    : (Result + error) * Cluster :=
  let args := Params ctx in
  let '(deployedProcesses, err, w) :=
    deployLoop args (toDeployProcesses args) [] w in
  match err with
  | Some e => (inr e, rollbackAddedProcesses args deployedProcesses w)
  | None => (inl (Some deployedProcesses), w)
  end.

Definition updateServices_Backward (ctx : BWContext) (w : Cluster)
    : option Cluster :=
  let args := BWParams ctx in
  match FWResult ctx with
  | Some deployedProcesses =>
      Some (rollbackAddedProcesses args deployedProcesses w)
  | None => None
  end.

Definition updateServices : Action :=
  {| Name := "update-services";
     Forward := updateServices_Forward;
     Backward := Some updateServices_Backward |}.

Definition updateImageInDB_Forward (ctx : FWContext) (w : Cluster)
    : (Result + error) * Cluster :=
  let args := Params ctx in
  match AppendAppImageName (app args) (newImage args) w with
  | (Some err, w) => (inr (errors_Wrap err ""), w)
  | (None, w) => (inl (Previous ctx), w)
  end.

Definition updateImageInDB : Action :=
  {| Name := "update-image-in-db";
     Forward := updateImageInDB_Forward;
     Backward := None |}.

(** One iteration of the loop of [removeOldServices.Forward]. *)
Definition removeOldProcess (args : pipelineArgs) (processName : string)
    (w : Cluster) : Cluster :=
  match removeService (app args) processName w with
  | (Some e, w) =>
      log_Errorf ignored_format [app args; processName; messageOf e] w
  | (None, w) => w
  end.

(** [set.FromMap]: the key set of a map. *)
Definition set_FromMap (m : gmap string string) : gset string := dom m.

(** The processes [removeOldServices.Forward] visits, in the order [range]
    enumerates the difference set. *)
Definition oldProcesses (args : pipelineArgs) : list string :=
  let old := set_FromMap (Processes (currentImgData args)) in
  let new := set_FromMap (Processes (newImgData args)) in
  elements (old ∖ new).

Definition removeOldServices_Forward (ctx : FWContext) (w : Cluster)
    : (Result + error) * Cluster :=
  let args := Params ctx in
  (inl None, foldl (λ w processName, removeOldProcess args processName w)
                   w (oldProcesses args)).

Definition removeOldServices : Action :=
  {| Name := "remove-old-services";
     Forward := removeOldServices_Forward;
     Backward := None |}.

(** ** The action pipeline *)

(** What a pipeline run comes to. *)
Inductive Outcome : Type :=
  | Completed (w : Cluster)
  | Failed (err : error) (w : Cluster)
  | Panicked.

(** Modelled from the spec: the pipeline engine is the [action] package,
    which is not part of these files. Compensation: [Backward], where
    defined, of every action whose [Forward] succeeded, most recent first,
    each with the result its own [Forward] produced. *)
Fixpoint pipeline_rollback (params : pipelineArgs)
    (succeeded : list (Action * Result)) (w : Cluster) : option Cluster :=
  match succeeded with
  | [] => Some w
  | (a, r) :: earlier =>
      match Backward a with
      | Some bw =>
          match bw {| BWParams := params; FWResult := r |} w with
          | Some w => pipeline_rollback params earlier w
          | None => None
          end
      | None => pipeline_rollback params earlier w
      end
  end.

(** Modelled from the spec: the actions run in list order, each receiving
    the previous result; the first [Forward] that fails stops the run,
    triggers the compensation and its error is the result of the run. *)
Fixpoint pipeline_run (params : pipelineArgs) (succeeded : list (Action * Result))
    (todo : list Action) (previous : Result) (w : Cluster) : Outcome :=
  match todo with
  | [] => Completed w
  | a :: rest =>
      match Forward a {| Params := params; Previous := previous |} w with
      | (inl r, w) => pipeline_run params ((a, r) :: succeeded) rest r w
      | (inr err, w) =>
          match pipeline_rollback params succeeded w with
          | Some w => Failed err w
          | None => Panicked
          end
      end
  end.

(** Modelled from the spec: [Execute] of the pipeline engine; the first
    action receives a [nil] previous result. *)
Definition pipeline_Execute (actions : list Action) (params : pipelineArgs)
    (w : Cluster) : Outcome :=
  pipeline_run params [] actions None w.

(** The Process Deployment Reconciler. *)
Definition deployPipeline : list Action :=
  [updateServices; updateImageInDB; removeOldServices].

(** ** Vocabulary of the statements *)

(** The request [rollbackAddedProcesses] sends for a process. *)
Definition rollbackCall (args : pipelineArgs) (p : string) : Call :=
  if decide (is_Some (Processes (currentImgData args) !! p))
  then CallDeploy (app args) p (currentImage args)
  else CallRemoveService (app args) p.

(** The Service that request asks for: the current image, or none. *)
Definition rollbackTarget (args : pipelineArgs) (p : string) : option string :=
  if decide (is_Some (Processes (currentImgData args) !! p))
  then Some (currentImage args)
  else None.

(** The request [updateServices.Forward] sends for a process. *)
Definition deployCall (args : pipelineArgs) (p : string) : Call :=
  CallDeploy (app args) p (newImage args).

(** The request [updateImageInDB.Forward] sends. *)
Definition appendCall (args : pipelineArgs) : Call :=
  CallAppendAppImageName (app args) (newImage args).

(** The requests a run has added to those received before it. *)
Definition issued (before after : Cluster) : list Call :=
  drop (length (calls before)) (calls after).

(** [w1] is [w] after the processes [l] were deployed at the new image and
    the requests [cs] were received: nothing else differs. *)
Definition deployedTo (args : pipelineArgs) (l : list string) (cs : list Call)
    (w w1 : Cluster) : Prop :=
  faults w1 = faults w ∧
  imageHistory w1 = imageHistory w ∧
  logs w1 = logs w ∧
  calls w1 = (calls w ++ cs)%list ∧
  ∀ a q, services w1 !! (a, q) =
           if decide (a = app args ∧ q ∈ l) then Some (newImage args)
           else services w !! (a, q).

(** The line logged for a removal the cluster rejects. *)
Definition ignoredLine (args : pipelineArgs) (w : Cluster) (p : string)
    : option (string * list string) :=
  match faults w (CallRemoveService (app args) p) with
  | Some e => Some (ignored_format, [app args; p; messageOf e])
  | None => None
  end.

(** The world a run ends in, if it ends. *)
Definition finalWorld (o : Outcome) : option Cluster :=
  match o with
  | Completed w => Some w
  | Failed _ w => Some w
  | Panicked => None
  end.

(** The world of a run of the deployment pipeline that started in [w];
    [w] itself if the run panics. *)
Definition afterPipeline (args : pipelineArgs) (w : Cluster) : Cluster :=
  default w (finalWorld (pipeline_Execute deployPipeline args w)).

(** ** Scenarios of the specification *)

Definition image_v1 : string := "registry/myapp:v1".
Definition image_v2 : string := "registry/myapp:v2".

(** A fault plan that rejects one request. *)
Definition rejecting (bad : Call) (e : error) : Call → option error :=
  λ c, if decide (c = bad) then Some e else None.

(** A cluster in which app [a] runs the processes of [m] at image [img]. *)
Definition clusterRunning (a img : string) (m : gmap string string)
    (plan : Call → option error) : Cluster :=
  {| services := list_to_map ((λ p, ((a, p), img)) <$> rangeKeys m);
     imageHistory := [(a, img)];
     calls := [];
     logs := [];
     faults := plan |}.

Definition webOnly : ImageMetadata :=
  {| Processes := {[ "web" := "python web.py" ]} |}.

Definition webAndWorker : ImageMetadata :=
  {| Processes := <[ "worker" := "python worker.py" ]> {[ "web" := "python web.py" ]} |}.

(** Scenario B: the new image drops the worker, and the cluster rejects the
    removal of its Service. *)
Definition scenarioB_args : pipelineArgs :=
  {| app := "myapp";
     newImage := image_v2; newImgData := webOnly;
     currentImage := image_v1; currentImgData := webAndWorker |}.

Definition scenarioB_cluster : Cluster :=
  clusterRunning "myapp" image_v1 (Processes webAndWorker)
    (rejecting (CallRemoveService "myapp" "worker")
               (foreignError "swarm" "service is busy")).

(** Scenario B on a cluster that accepts every request. *)
Definition scenarioB_healthy : Cluster :=
  clusterRunning "myapp" image_v1 (Processes webAndWorker) (λ _, None).

(** Scenario C: the new image adds the worker, and the cluster rejects its
    deployment. *)
Definition scenarioC_args : pipelineArgs :=
  {| app := "myapp";
     newImage := image_v2; newImgData := webAndWorker;
     currentImage := image_v1; currentImgData := webOnly |}.

Definition scenarioC_cluster : Cluster :=
  clusterRunning "myapp" image_v1 (Processes webOnly)
    (rejecting (CallDeploy "myapp" "worker" image_v2)
               (foreignError "swarm" "no node available")).

(** The line [rollbackAddedProcesses] logs for a request the cluster
    rejects. *)
Definition rollbackLine (args : pipelineArgs) (w : Cluster) (p : string)
    : option (string * list string) :=
  match faults w (rollbackCall args p) with
  | Some e => Some (rollback_format, [app args; p; messageOf e])
  | None => None
  end.

(** Scenario A: the new image adds the worker and every request is
    accepted. *)
Definition scenarioA_cluster : Cluster :=
  clusterRunning "myapp" image_v1 (Processes webOnly) (λ _, None).

(** Scenario C once "web" runs the new image, on a cluster that rejects
    the request to put the current image back. *)
Definition scenarioC_stuck : Cluster :=
  clusterRunning "myapp" image_v2 (Processes webOnly)
    (rejecting (CallDeploy "myapp" "web" image_v1)
               (foreignError "swarm" "no node available")).

(** Fault plans that accept, and that reject, every request. *)
Definition accepting : Call → option error := λ _, None.
Definition refusing (e : error) : Call → option error := λ _, Some e.

(** The app a request is about. *)
Definition callApp (c : Call) : string :=
  match c with
  | CallDeploy a _ _ => a
  | CallRemoveService a _ => a
  | CallAppendAppImageName a _ => a
  end.

End Swarm.

(** * provision/kubernetes/nodecontainer.go *)

Module Kubernetes.

(** A Go slice is [nil] or a list: [reflect.DeepEqual] tells a [nil] slice
    from an empty one, and a [nil] map from an empty one. *)
Definition len {A : Type} (s : option (list A)) : nat := from_option length 0 s.

Definition alphaAffinityAnnotation : string :=
  "scheduler.alpha.kubernetes.io/affinity".

(** ** Configuration data: [servicecommon.PoolFilter],
    [nodecontainer.NodeContainerConfig] *)

Record PoolFilter : Type := mkPoolFilter {
  Include : option (list string);
  Exclude : option (list string)
}.

Record RestartPolicy : Type := mkRestartPolicy {
  rp_Name : string;
  rp_MaximumRetryCount : nat
}.

Record DockerConfig : Type := mkDockerConfig {
  Env : list string;
  cfg_Labels : gmap string string;
  Entrypoint : option (list string);
  Cmd : option (list string);
  WorkingDir : string;
  Tty : bool;
  cfg_Image : string
}.

Record DockerHostConfig : Type := mkDockerHostConfig {
  Binds : list string;
  Privileged : bool;
  hc_RestartPolicy : RestartPolicy;
  NetworkMode : string
}.

Record NodeContainerConfig : Type := mkNodeContainerConfig {
  nc_Name : string;
  PinnedImage : string;
  Config : DockerConfig;
  HostConfig : DockerHostConfig
}.

(** [config.HostConfig.Binds = binds], through the pointer the caller
    shares. *)
Definition set_Binds (binds : list string) (config : NodeContainerConfig)
    : NodeContainerConfig :=
  {| nc_Name := nc_Name config;
     PinnedImage := PinnedImage config;
     Config := Config config;
     HostConfig :=
       {| Binds := binds;
          Privileged := Privileged (HostConfig config);
          hc_RestartPolicy := hc_RestartPolicy (HostConfig config);
          NetworkMode := NetworkMode (HostConfig config) |} |}.

(** ** Cluster objects: the parts of [v1] and [extensions/v1beta1] in use *)

Definition NodeSelectorOpIn : string := "In".
Definition NodeSelectorOpNotIn : string := "NotIn".

Record NodeSelectorRequirement : Type := mkNodeSelectorRequirement {
  Key : string;
  Operator : string;
  Values : option (list string)
}.

Record NodeSelectorTerm : Type := mkNodeSelectorTerm {
  MatchExpressions : option (list NodeSelectorRequirement)
}.

Record NodeSelector : Type := mkNodeSelector {
  NodeSelectorTerms : option (list NodeSelectorTerm)
}.

(** The preferred terms and the pod (anti-)affinities are never built by
    this file; an existing object may carry them, so they are kept, in
    serialized form. *)
Record NodeAffinity : Type := mkNodeAffinity {
  RequiredDuringSchedulingIgnoredDuringExecution : option NodeSelector;
  PreferredDuringSchedulingIgnoredDuringExecution : option (list string)
}.

Record Affinity : Type := mkAffinity {
  aff_NodeAffinity : option NodeAffinity;
  aff_PodAffinity : option string;
  aff_PodAntiAffinity : option string
}.

Record EnvVar : Type := mkEnvVar {
  env_Name : string;
  env_Value : string
}.

Record Volume : Type := mkVolume {
  vol_Name : string;
  vol_HostPath : option string
}.

Record VolumeMount : Type := mkVolumeMount {
  mount_Name : string;
  MountPath : string;
  ReadOnly : bool
}.

Record SecurityContext : Type := mkSecurityContext {
  sc_Privileged : option bool
}.

Record Container : Type := mkContainer {
  ct_Name : string;
  ct_Image : string;
  ct_Command : option (list string);
  ct_Args : option (list string);
  ct_Env : option (list EnvVar);
  ct_WorkingDir : string;
  ct_TTY : bool;
  ct_VolumeMounts : option (list VolumeMount);
  ct_SecurityContext : option SecurityContext
}.

Definition RestartPolicyAlways : string := "Always".
Definition RestartPolicyOnFailure : string := "OnFailure".
Definition RestartPolicyNever : string := "Never".

Record ObjectMeta : Type := mkObjectMeta {
  Name : string;
  Namespace : string;
  ResourceVersion : string;
  Labels : option (gmap string string);
  Annotations : option (gmap string string)
}.

Record PodSpec : Type := mkPodSpec {
  spec_Affinity : option Affinity;
  Volumes : option (list Volume);
  spec_RestartPolicy : string;
  HostNetwork : bool;
  Containers : option (list Container)
}.

Record PodTemplateSpec : Type := mkPodTemplateSpec {
  tpl_ObjectMeta : ObjectMeta;
  tpl_Spec : PodSpec
}.

Definition RollingUpdateDaemonSetStrategyType : string := "RollingUpdate".

Record DaemonSetUpdateStrategy : Type := mkDaemonSetUpdateStrategy {
  strategy_Type : string;
  RollingUpdate_MaxUnavailable : option string
}.

Record DaemonSetSpec : Type := mkDaemonSetSpec {
  Selector_MatchLabels : option (option (gmap string string));
  UpdateStrategy : DaemonSetUpdateStrategy;
  Template : PodTemplateSpec
}.

(** The status is written by the cluster only; it is kept as the number of
    nodes it reports. *)
Record DaemonSet : Type := mkDaemonSet {
  ds_ObjectMeta : ObjectMeta;
  Spec : DaemonSetSpec;
  Status_NumberReady : nat
}.

Global Instance NodeSelectorRequirement_eq_dec : EqDecision NodeSelectorRequirement.
Proof. solve_decision. Defined.
Global Instance NodeSelectorTerm_eq_dec : EqDecision NodeSelectorTerm.
Proof. solve_decision. Defined.
Global Instance NodeSelector_eq_dec : EqDecision NodeSelector.
Proof. solve_decision. Defined.
Global Instance NodeAffinity_eq_dec : EqDecision NodeAffinity.
Proof. solve_decision. Defined.
Global Instance Affinity_eq_dec : EqDecision Affinity.
Proof. solve_decision. Defined.
Global Instance EnvVar_eq_dec : EqDecision EnvVar.
Proof. solve_decision. Defined.
Global Instance Volume_eq_dec : EqDecision Volume.
Proof. solve_decision. Defined.
Global Instance VolumeMount_eq_dec : EqDecision VolumeMount.
Proof. solve_decision. Defined.
Global Instance SecurityContext_eq_dec : EqDecision SecurityContext.
Proof. solve_decision. Defined.
Global Instance Container_eq_dec : EqDecision Container.
Proof. solve_decision. Defined.
Global Instance ObjectMeta_eq_dec : EqDecision ObjectMeta.
Proof. solve_decision. Defined.
Global Instance PodSpec_eq_dec : EqDecision PodSpec.
Proof. solve_decision. Defined.
Global Instance PodTemplateSpec_eq_dec : EqDecision PodTemplateSpec.
Proof. solve_decision. Defined.
Global Instance DaemonSetUpdateStrategy_eq_dec : EqDecision DaemonSetUpdateStrategy.
Proof. solve_decision. Defined.
Global Instance DaemonSetSpec_eq_dec : EqDecision DaemonSetSpec.
Proof. solve_decision. Defined.
Global Instance DaemonSet_eq_dec : EqDecision DaemonSet.
Proof. solve_decision. Defined.

(** [reflect.DeepEqual] on the values compared in this file: with [nil]
    as [None], deep equality is equality. *)
Definition reflect_DeepEqual {A : Type} `{EqDecision A} (x y : A) : bool :=
  bool_decide (x = y).

(** [oldDs.Spec.Template.ObjectMeta.Annotations = annotations]. *)
Definition set_Annotations (annotations : option (gmap string string))
    (ds : DaemonSet) : DaemonSet :=
  let spec := Spec ds in
  let tpl := Template spec in
  let meta := tpl_ObjectMeta tpl in
  {| ds_ObjectMeta := ds_ObjectMeta ds;
     Spec :=
       {| Selector_MatchLabels := Selector_MatchLabels spec;
          UpdateStrategy := UpdateStrategy spec;
          Template :=
            {| tpl_ObjectMeta :=
                 {| Name := Name meta;
                    Namespace := Namespace meta;
                    ResourceVersion := ResourceVersion meta;
                    Labels := Labels meta;
                    Annotations := annotations |};
               tpl_Spec := tpl_Spec tpl |} |};
     Status_NumberReady := Status_NumberReady ds |}.

(** [oldDs.Spec.Template.Spec.Affinity = affinity]. *)
Definition set_Affinity (affinity : option Affinity) (ds : DaemonSet) : DaemonSet :=
  let spec := Spec ds in
  let tpl := Template spec in
  let pod := tpl_Spec tpl in
  {| ds_ObjectMeta := ds_ObjectMeta ds;
     Spec :=
       {| Selector_MatchLabels := Selector_MatchLabels spec;
          UpdateStrategy := UpdateStrategy spec;
          Template :=
            {| tpl_ObjectMeta := tpl_ObjectMeta tpl;
               tpl_Spec :=
                 {| spec_Affinity := affinity;
                    Volumes := Volumes pod;
                    spec_RestartPolicy := spec_RestartPolicy pod;
                    HostNetwork := HostNetwork pod;
                    Containers := Containers pod |} |} |};
     Status_NumberReady := Status_NumberReady ds |}.

(** ** The cluster API *)

Inductive Request : Type :=
  | GetDaemonSet (namespace name : string)
  | UpdateDaemonSet (namespace : string) (ds : DaemonSet)
  | CreateDaemonSet (namespace : string) (ds : DaemonSet).

Global Instance Request_eq_dec : EqDecision Request.
Proof. solve_decision. Defined.

(** A [clusterClient] together with the cluster behind it: the namespace
    it works in, the daemon sets stored there by name, the requests the
    cluster has received, oldest first, and the fault plan: the requests the
    API rejects, with the error it answers. *)
Record clusterClient : Type := mkClusterClient {
  client_Namespace : string;
  daemonSets : gmap string DaemonSet;
  requests : list Request;
  apiFaults : Request → option error
}.

Definition record_request (r : Request) (c : clusterClient) : clusterClient :=
  {| client_Namespace := client_Namespace c; daemonSets := daemonSets c;
     requests := requests c ++ [r]; apiFaults := apiFaults c |}.

Definition set_daemonSets (m : gmap string DaemonSet) (c : clusterClient)
    : clusterClient :=
  {| client_Namespace := client_Namespace c; daemonSets := m;
     requests := requests c; apiFaults := apiFaults c |}.

Definition StatusReasonNotFound : string := "NotFound".
Definition StatusReasonAlreadyExists : string := "AlreadyExists".

(** [k8sErrors.IsNotFound]. *)
Definition k8sErrors_IsNotFound (err : error) : bool :=
  match err with
  | statusError reason _ => bool_decide (reason = StatusReasonNotFound)
  | _ => false
  end.

(** Modelled from the spec: the cluster API client is a library behind the
    file. [Get] reads a daemon set by name; an absent one is answered with
    a not-found status. *)
Definition DaemonSets_Get (name : string) (c : clusterClient)
    : (DaemonSet + error) * clusterClient :=
  let r := GetDaemonSet (client_Namespace c) name in
  let c := record_request r c in
  match apiFaults c r with
  | Some e => (inr e, c)
  | None =>
      match daemonSets c !! name with
      | Some ds => (inl ds, c)
      | None => (inr (statusError StatusReasonNotFound name), c)
      end
  end.

(** Modelled from the spec: [Update] replaces the stored daemon set of the
    same name. *)
Definition DaemonSets_Update (ds : DaemonSet) (c : clusterClient)
    : option error * clusterClient :=
  let r := UpdateDaemonSet (client_Namespace c) ds in
  let c := record_request r c in
  let name := Name (ds_ObjectMeta ds) in
  match apiFaults c r with
  | Some e => (Some e, c)
  | None =>
      match daemonSets c !! name with
      | Some _ => (None, set_daemonSets (<[name := ds]> (daemonSets c)) c)
      | None => (Some (statusError StatusReasonNotFound name), c)
      end
  end.

(** Modelled from the spec: [Create] stores a daemon set under a name that
    is free. *)
Definition DaemonSets_Create (ds : DaemonSet) (c : clusterClient)
    : option error * clusterClient :=
  let r := CreateDaemonSet (client_Namespace c) ds in
  let c := record_request r c in
  let name := Name (ds_ObjectMeta ds) in
  match apiFaults c r with
  | Some e => (Some e, c)
  | None =>
      match daemonSets c !! name with
      | Some _ => (Some (statusError StatusReasonAlreadyExists name), c)
      | None => (None, set_daemonSets (<[name := ds]> (daemonSets c)) c)
      end
  end.

(** ** What the file takes from the rest of the repository and from its
    libraries *)

Record NodeContainerLabelsOpts : Type := mkNodeContainerLabelsOpts {
  opts_Name : string;
  CustomLabels : gmap string string;
  Pool : string;
  Provisioner : string;
  Prefix : string
}.

Class Externals : Type := {
  (** [daemonSetName], a helper of the package *)
  daemonSetName : string → string → string;
  (** constants of [provision], [nodecontainer] and of the package *)
  LabelNodePool : string;
  BsDefaultName : string;
  provisionerName : string;
  tsuruLabelPrefix : string;
  (** [provision.NodeContainerLabels] followed by [ToNodeContainerSelector]
      and by [ToLabels] *)
  ToNodeContainerSelector : NodeContainerLabelsOpts → option (gmap string string);
  ToLabels : NodeContainerLabelsOpts → option (gmap string string);
  (** the [Image] method of the configuration *)
  config_Image : NodeContainerConfig → string;
  (** [json.Marshal] on an affinity *)
  json_Marshal : Affinity → string + error
}.

(** [docker.RestartOnFailure(0).Name] and [docker.NeverRestart().Name]. *)
Definition docker_RestartOnFailure_Name : string := "on-failure".
Definition docker_NeverRestart_Name : string := "no".

(** [strings.SplitN] with a one-character separator and [n >= 0]. *)
Fixpoint cut (sep : ascii) (s : string) : option (string * string) :=
  match s with
  | EmptyString => None
  | String c rest =>
      if decide (c = sep) then Some (EmptyString, rest)
      else match cut sep rest with
           | Some (before, after) => Some (String c before, after)
           | None => None
           end
  end.

Fixpoint strings_SplitN (s : string) (sep : ascii) (n : nat) : list string :=
  match n with
  | 0 => []
  | 1 => [s]
  | S n' =>
      match cut sep s with
      | Some (before, after) => before :: strings_SplitN after sep n'
      | None => [s]
      end
  end.

Section reconcile.
Context `{!Externals}.

(** ** deployNodeContainerForCluster *)

(** Lines 50-59: the node-selection requirement of a pool filter. *)
Definition nodeRequirement (filter : PoolFilter) : NodeSelectorRequirement :=
  if decide (0 < len (Exclude filter))
  then {| Key := LabelNodePool;
          Operator := NodeSelectorOpNotIn;
          Values := Exclude filter |}
  else {| Key := LabelNodePool;
          Operator := NodeSelectorOpIn;
          Values := Include filter |}.

(** Lines 63-71: the affinity built around a requirement. *)
Definition requiredNodeAffinity (nodeReq : NodeSelectorRequirement) : Affinity :=
  {| aff_NodeAffinity := Some
       {| RequiredDuringSchedulingIgnoredDuringExecution := Some
            {| NodeSelectorTerms := Some
                 [ {| MatchExpressions := Some [nodeReq] |} ] |};
          PreferredDuringSchedulingIgnoredDuringExecution := None |};
     aff_PodAffinity := None;
     aff_PodAntiAffinity := None |}.

(** Lines 60-78: [affinityAnnotation] and [affinity], or the error of the
    serialization. *)
Definition placement (filter : PoolFilter)
    : (gmap string string * option Affinity) + error :=
  let nodeReq := nodeRequirement filter in
  if decide (len (Values nodeReq) ≠ 0)
  then
    let affinity := requiredNodeAffinity nodeReq in
    match json_Marshal affinity with
    | inl affinityData =>
        inl (<[alphaAffinityAnnotation := affinityData]> ∅, Some affinity)
    | inr err => inr err
    end
  else inl (∅, None).

(** Lines 96-103. *)
Definition envVar (v : string) : EnvVar :=
  let parts := strings_SplitN v "="%char 2 in
  {| env_Name := default "" (parts !! 0);
     env_Value := if decide (1 < length parts) then default "" (parts !! 1) else "" |}.

(** The binds injected for the default node container, lines 108-111. *)
Definition bsBinds : list string :=
  [ "/var/log:/var/log:rw";
    "/var/lib/docker/containers:/var/lib/docker/containers:ro";
    "/mnt/sda1/var/lib/docker/containers:/mnt/sda1/var/lib/docker/containers:ro" ].

(** Lines 113-134, one iteration. *)
Definition bindVolume (i : nat) (b : string) : Volume * VolumeMount :=
  let parts := strings_SplitN b ":"%char 3 in
  let vol := {| vol_Name := "volume-" +:+ pretty i;
                vol_HostPath := Some (default "" (parts !! 0)) |} in
  let mount :=
    {| mount_Name := vol_Name vol;
       MountPath := if decide (1 < length parts) then default "" (parts !! 1) else "";
       ReadOnly := if decide (2 < length parts)
                   then bool_decide (default "" (parts !! 2) = "ro") else false |} in
  (vol, mount).

(** A slice grown by [append] from [nil]: still [nil] if nothing was
    appended. *)
Definition appended {A : Type} (l : list A) : option (list A) :=
  match l with
  | [] => None
  | _ => Some l
  end.

(** Lines 142-148. *)
Definition restartPolicyOf (config : NodeContainerConfig) : string :=
  let name := rp_Name (hc_RestartPolicy (HostConfig config)) in
  if decide (name = docker_RestartOnFailure_Name) then RestartPolicyOnFailure
  else if decide (name = docker_NeverRestart_Name) then RestartPolicyNever
  else RestartPolicyAlways.

(** Lines 150-191: the daemon set of a full reconciliation; [config] is the
    configuration after the binds were injected. *)
Definition desiredDaemonSet (namespace dsName pool : string)
    (config : NodeContainerConfig) (ls : NodeContainerLabelsOpts)
    (affinityAnnotation : gmap string string) (affinity : option Affinity)
    : DaemonSet :=
  let binds := imap bindVolume (Binds (HostConfig config)) in
  let secCtx :=
    if Privileged (HostConfig config)
    then Some {| sc_Privileged := Some true |} else None in
  {| ds_ObjectMeta :=
       {| Name := dsName; Namespace := namespace; ResourceVersion := "";
          Labels := None; Annotations := None |};
     Spec :=
       {| Selector_MatchLabels := Some (ToNodeContainerSelector ls);
          UpdateStrategy :=
            {| strategy_Type := RollingUpdateDaemonSetStrategyType;
               RollingUpdate_MaxUnavailable := Some "20%" |};
          Template :=
            {| tpl_ObjectMeta :=
                 {| Name := ""; Namespace := ""; ResourceVersion := "";
                    Labels := ToLabels ls;
                    Annotations := Some affinityAnnotation |};
               tpl_Spec :=
                 {| spec_Affinity := affinity;
                    Volumes := appended (binds.*1);
                    spec_RestartPolicy := restartPolicyOf config;
                    HostNetwork :=
                      bool_decide (NetworkMode (HostConfig config) = "host");
                    Containers := Some
                      [ {| ct_Name := nc_Name config;
                           ct_Image := config_Image config;
                           ct_Command := Entrypoint (Config config);
                           ct_Args := Cmd (Config config);
                           ct_Env := Some (envVar <$> Env (Config config));
                           ct_WorkingDir := WorkingDir (Config config);
                           ct_TTY := Tty (Config config);
                           ct_VolumeMounts := appended (binds.*2);
                           ct_SecurityContext := secCtx |} ] |} |} |};
     Status_NumberReady := 0 |}.

(** Lines 43-49: the existing daemon set, [nil] when there is none, or the
    error that aborts. *)
Definition fetchOld (dsName : string) (client : clusterClient)
    : (option DaemonSet + error) * clusterClient :=
  match DaemonSets_Get dsName client with
  | (inl ds, client) => (inl (Some ds), client)
  | (inr err, client) =>
      if k8sErrors_IsNotFound err then (inl None, client)
      else (inr err, client)
  end.

(** Lines 89-197: the full reconciliation. *)
Definition fullReconcile (client : clusterClient) (config : NodeContainerConfig)
    (pool dsName : string) (oldDs : option DaemonSet)
    (affinityAnnotation : gmap string string) (affinity : option Affinity)
    : NodeContainerConfig * clusterClient * option error :=
  let ls := {| opts_Name := nc_Name config;
               CustomLabels := cfg_Labels (Config config);
               Pool := pool;
               Provisioner := provisionerName;
               Prefix := tsuruLabelPrefix |} in
  let config :=
    if decide (nc_Name config = BsDefaultName)
    then set_Binds (Binds (HostConfig config) ++ bsBinds)%list config
    else config in
  let ds := desiredDaemonSet (client_Namespace client) dsName pool config ls
              affinityAnnotation affinity in
  let '(err, client) :=
    match oldDs with
    | Some _ => DaemonSets_Update ds client
    | None => DaemonSets_Create ds client
    end in
  (config, client, errors_WithStack err).

(** The function. [config] is a pointer in the source, so the configuration
    the caller holds afterwards is part of the result. *)
Definition deployNodeContainerForCluster (client : clusterClient)
    (config : NodeContainerConfig) (pool : string) (filter : PoolFilter)
    (placementOnly : bool)
    : NodeContainerConfig * clusterClient * option error :=
  let dsName := daemonSetName (nc_Name config) pool in
  match fetchOld dsName client with
  | (inr err, client) => (config, client, errors_WithStack (Some err))
  | (inl oldDs, client) =>
      match placement filter with
      | inr err => (config, client, errors_WithStack (Some err))
      | inl (affinityAnnotation, affinity) =>
          match oldDs, placementOnly with
          | Some oldDs, true =>
              let tpl := Template (Spec oldDs) in
              if reflect_DeepEqual (Annotations (tpl_ObjectMeta tpl))
                                   (Some affinityAnnotation)
                 && reflect_DeepEqual (spec_Affinity (tpl_Spec tpl)) affinity
              then (config, client, None)
              else
                let oldDs := set_Annotations (Some affinityAnnotation) oldDs in
                let oldDs := set_Affinity affinity oldDs in
                let '(err, client) := DaemonSets_Update oldDs client in
                (config, client, errors_WithStack err)
          | _, _ =>
              fullReconcile client config pool dsName oldDs
                affinityAnnotation affinity
          end
      end
  end.

(** ** DeployNodeContainer *)

(** [cluster.ErrNoCluster]. *)
Definition ErrNoCluster : error := errorString "no cluster".

(** Modelled from the spec: [forEachCluster] is a helper of the package
    outside this file. It calls [fn] on every registered cluster in turn and
    stops at the first error; with no cluster registered it answers
    [ErrNoCluster]. What [fn] captures and writes to is the state [S]. *)
Fixpoint eachCluster {S : Type}
    (fn : clusterClient → S → S * clusterClient * option error)
    (clusters : list clusterClient) (s : S)
    : S * list clusterClient * option error :=
  match clusters with
  | [] => (s, [], None)
  | client :: rest =>
      match fn client s with
      | (s, client, Some err) => (s, client :: rest, Some err)
      | (s, client, None) =>
          let '(s, rest, err) := eachCluster fn rest s in
          (s, client :: rest, err)
      end
  end.

(** Modelled from the spec: the entry of [forEachCluster]. *)
Definition forEachCluster {S : Type}
    (fn : clusterClient → S → S * clusterClient * option error)
    (clusters : list clusterClient) (s : S)
    : S * list clusterClient * option error :=
  match clusters with
  | [] => (s, [], Some ErrNoCluster)
  | _ => eachCluster fn clusters s
  end.

(** The function literal handed to [forEachCluster] at lines 32-34; it
    captures the pointer to the configuration. *)
Definition reconcileCluster (pool : string) (filter : PoolFilter)
    (placementOnly : bool) (cluster : clusterClient)
    (config : NodeContainerConfig)
    : NodeContainerConfig * clusterClient * option error :=
  deployNodeContainerForCluster cluster config pool filter placementOnly.

(** The clusters are the registered ones, in the order [forEachCluster]
    visits them. *)
Definition DeployNodeContainer (clusters : list clusterClient)
    (config : NodeContainerConfig) (pool : string) (filter : PoolFilter)
    (placementOnly : bool)
    : NodeContainerConfig * list clusterClient * option error :=
  let '(config, clusters, err) :=
    forEachCluster (reconcileCluster pool filter placementOnly) clusters config in
  if decide (err = Some ErrNoCluster) then (config, clusters, None)
  else (config, clusters, err).

(** ** Vocabulary of the statements *)

(** The requests a reconciliation has added to those the cluster had
    received before it. *)
Definition sent (before after : clusterClient) : list Request :=
  drop (length (requests before)) (requests after).

(** The request that reads the daemon set of a configuration and pool. *)
Definition getRequest (client : clusterClient) (config : NodeContainerConfig)
    (pool : string) : Request :=
  GetDaemonSet (client_Namespace client) (daemonSetName (nc_Name config) pool).

(** The configuration the caller holds after a full reconciliation. *)
Definition injected (config : NodeContainerConfig) : NodeContainerConfig :=
  if decide (nc_Name config = BsDefaultName)
  then set_Binds (Binds (HostConfig config) ++ bsBinds)%list config
  else config.

(** Two daemon sets agree on every field other than the annotations and
    the affinity of the pod template. *)
Definition sameButPlacement (ds1 ds2 : DaemonSet) : Prop :=
  ds_ObjectMeta ds1 = ds_ObjectMeta ds2 ∧
  Status_NumberReady ds1 = Status_NumberReady ds2 ∧
  Selector_MatchLabels (Spec ds1) = Selector_MatchLabels (Spec ds2) ∧
  UpdateStrategy (Spec ds1) = UpdateStrategy (Spec ds2) ∧
  Name (tpl_ObjectMeta (Template (Spec ds1)))
    = Name (tpl_ObjectMeta (Template (Spec ds2))) ∧
  Namespace (tpl_ObjectMeta (Template (Spec ds1)))
    = Namespace (tpl_ObjectMeta (Template (Spec ds2))) ∧
  ResourceVersion (tpl_ObjectMeta (Template (Spec ds1)))
    = ResourceVersion (tpl_ObjectMeta (Template (Spec ds2))) ∧
  Labels (tpl_ObjectMeta (Template (Spec ds1)))
    = Labels (tpl_ObjectMeta (Template (Spec ds2))) ∧
  Volumes (tpl_Spec (Template (Spec ds1)))
    = Volumes (tpl_Spec (Template (Spec ds2))) ∧
  spec_RestartPolicy (tpl_Spec (Template (Spec ds1)))
    = spec_RestartPolicy (tpl_Spec (Template (Spec ds2))) ∧
  HostNetwork (tpl_Spec (Template (Spec ds1)))
    = HostNetwork (tpl_Spec (Template (Spec ds2))) ∧
  Containers (tpl_Spec (Template (Spec ds1)))
    = Containers (tpl_Spec (Template (Spec ds2))).

(** The daemon set of (config, pool) exists in the cluster as [ds] and the
    cluster answers the request to read it. *)
Definition existing (client : clusterClient) (config : NodeContainerConfig)
    (pool : string) (ds : DaemonSet) : Prop :=
  apiFaults client (getRequest client config pool) = None ∧
  daemonSets client !! daemonSetName (nc_Name config) pool = Some ds.

(** No daemon set of (config, pool) exists and the cluster answers the
    request to read it. *)
Definition absent (client : clusterClient) (config : NodeContainerConfig)
    (pool : string) : Prop :=
  apiFaults client (getRequest client config pool) = None ∧
  daemonSets client !! daemonSetName (nc_Name config) pool = None.

End reconcile.

(** ** A deployment of the package *)

Definition quoted (s : string) : string := String "034" (s +:+ String "034" "").

Definition renderRequirement (r : NodeSelectorRequirement) : string :=
  "{key:" +:+ quoted (Key r) +:+ ",operator:" +:+ quoted (Operator r) +:+
  ",values:[" +:+ String.concat "," (quoted <$> default [] (Values r)) +:+ "]}".

(** A rendering of the affinities this file builds. *)
Definition renderAffinity (a : Affinity) : string :=
  match aff_NodeAffinity a with
  | Some {| RequiredDuringSchedulingIgnoredDuringExecution :=
              Some {| NodeSelectorTerms := Some terms |} |} =>
      "{nodeAffinity:[" +:+
      String.concat ";"
        ((λ t, String.concat "," (renderRequirement <$> default [] (MatchExpressions t)))
           <$> terms) +:+ "]}"
  | _ => "{}"
  end.

Definition tsuruExternals : Externals :=
  {| daemonSetName := λ name pool,
       if decide (pool = "") then "node-container-" +:+ name +:+ "-all"
       else "node-container-" +:+ name +:+ "-pool-" +:+ pool;
     LabelNodePool := "pool";
     BsDefaultName := "big-sibling";
     provisionerName := "kubernetes";
     tsuruLabelPrefix := "tsuru.io/";
     ToNodeContainerSelector := λ o,
       Some (<[ Prefix o +:+ "node-container-name" := opts_Name o ]>
               {[ Prefix o +:+ "node-container-pool" := Pool o ]});
     ToLabels := λ o,
       Some (<[ Prefix o +:+ "node-container-name" := opts_Name o ]>
             (<[ Prefix o +:+ "node-container-pool" := Pool o ]>
              (<[ Prefix o +:+ "provisioner" := Provisioner o ]> (CustomLabels o))));
     config_Image := λ c,
       if decide (PinnedImage c = "") then cfg_Image (Config c) else PinnedImage c;
     json_Marshal := λ a, inl (renderAffinity a) |}.

(** The default node container and another one. *)
Definition bigSibling : NodeContainerConfig :=
  {| nc_Name := "big-sibling";
     PinnedImage := "";
     Config := {| Env := ["LOG_LEVEL=debug"; "EMPTY"]; cfg_Labels := ∅;
                  Entrypoint := None; Cmd := None; WorkingDir := "";
                  Tty := false; cfg_Image := "tsuru/bs:v1" |};
     HostConfig := {| Binds := ["/proc:/prochost:ro"]; Privileged := true;
                      hc_RestartPolicy := {| rp_Name := "always";
                                             rp_MaximumRetryCount := 0 |};
                      NetworkMode := "host" |} |}.

Definition logShipper : NodeContainerConfig :=
  {| nc_Name := "log-shipper";
     PinnedImage := "";
     Config := {| Env := []; cfg_Labels := ∅;
                  Entrypoint := None; Cmd := None; WorkingDir := "";
                  Tty := false; cfg_Image := "tsuru/shipper:v3" |};
     HostConfig := {| Binds := []; Privileged := false;
                      hc_RestartPolicy := {| rp_Name := "no";
                                             rp_MaximumRetryCount := 0 |};
                      NetworkMode := "" |} |}.

Definition emptyCluster : clusterClient :=
  {| client_Namespace := "default"; daemonSets := ∅; requests := [];
     apiFaults := λ _, None |}.

Definition onlyPoolA : PoolFilter := {| Include := Some ["pool-a"]; Exclude := None |}.
Definition notPoolB : PoolFilter := {| Include := None; Exclude := Some ["pool-b"] |}.
Definition everyPool : PoolFilter := {| Include := None; Exclude := None |}.

(** The affinity that keeps a pod off the nodes of "pool-b". *)
Definition poolB_excluded : Affinity :=
  {| aff_NodeAffinity := Some
       {| RequiredDuringSchedulingIgnoredDuringExecution := Some
            {| NodeSelectorTerms := Some
                 [ {| MatchExpressions := Some
                        [ {| Key := "pool";
                             Operator := "NotIn";
                             Values := Some ["pool-b"] |} ] |} ] |};
          PreferredDuringSchedulingIgnoredDuringExecution := None |};
     aff_PodAffinity := None;
     aff_PodAntiAffinity := None |}.

(** The annotations of the stored daemon sets as a cluster hands them back
    once an empty map has become [nil]. *)
Definition dropEmptyAnnotations (client : clusterClient) : clusterClient :=
  set_daemonSets
    ((λ ds, match Annotations (tpl_ObjectMeta (Template (Spec ds))) with
            | Some m => if decide (m = ∅) then set_Annotations None ds else ds
            | None => ds
            end) <$> daemonSets client) client.

(** The cluster after the first, full reconciliation of a configuration. *)
Definition clusterAfter (config : NodeContainerConfig) (pool : string)
    (filter : PoolFilter) : clusterClient :=
  (@deployNodeContainerForCluster tsuruExternals emptyCluster config pool
     filter false).1.2.

(** The zero value of a daemon set. *)
Definition zeroDaemonSet : DaemonSet :=
  {| ds_ObjectMeta := {| Name := ""; Namespace := ""; ResourceVersion := "";
                         Labels := None; Annotations := None |};
     Spec := {| Selector_MatchLabels := None;
                UpdateStrategy := {| strategy_Type := "";
                                     RollingUpdate_MaxUnavailable := None |};
                Template :=
                  {| tpl_ObjectMeta := {| Name := ""; Namespace := "";
                                          ResourceVersion := "";
                                          Labels := None; Annotations := None |};
                     tpl_Spec := {| spec_Affinity := None; Volumes := None;
                                    spec_RestartPolicy := "";
                                    HostNetwork := false; Containers := None |} |} |};
     Status_NumberReady := 0 |}.

(** The daemon set a cluster stores under a name, the zero value when it
    stores none. *)
Definition storedIn (client : clusterClient) (name : string) : DaemonSet :=
  default zeroDaemonSet (daemonSets client !! name).

(** The annotations and the affinity of a filter whose affinity can be
    serialised. *)
Definition placementOf (filter : PoolFilter)
    : gmap string string * option Affinity :=
  match @placement tsuruExternals filter with
  | inl p => p
  | inr _ => (∅, None)
  end.

(** The characters of a string. *)
Definition letters (s : string) : list ascii := String.list_ascii_of_string s.

(** The one container of a daemon set built by this file. *)
Definition containerOf (ds : DaemonSet) : option Container :=
  match Containers (tpl_Spec (Template (Spec ds))) with
  | Some [ct] => Some ct
  | _ => None
  end.

(** The daemon set a write request carries. *)
Definition written (r : Request) : option DaemonSet :=
  match r with
  | GetDaemonSet _ _ => None
  | UpdateDaemonSet _ ds => Some ds
  | CreateDaemonSet _ ds => Some ds
  end.

(** A cluster that rejects the read of one daemon set. *)
Definition unreadable (name : string) (e : error) : clusterClient :=
  {| client_Namespace := "default"; daemonSets := ∅; requests := [];
     apiFaults := λ r, if decide (r = GetDaemonSet "default" name)
                       then Some e else None |}.

End Kubernetes.

(** * provision/docker/docker.go *)

Module Docker.

(** ** Data *)

(** A value decoded by [encoding/json] into [interface{}]: [nil], [bool],
    [float64] (kept as its literal), [string], [[]interface{}] or
    [map[string]interface{}]. *)
#[local] Set Warnings "-register-all".
Inductive JSON : Type :=
  | JNull
  | JBool (b : bool)
  | JNumber (literal : string)
  | JString (s : string)
  | JArray (items : list JSON)
  | JObject (fields : gmap string JSON).

(** [container]. *)
Record container : Type := mkContainer {
  name : string;
  instanceId : string
}.

(** The machine the provisioner runs on: the configuration file, the
    command executor (the output and the error of running a command), the
    JSON decoder applied to a [map[string]interface{}] target (the decoded
    map, [nil] for the document [null], or the syntax or type error), and
    the log. *)
Record Host : Type := mkHost {
  configuration : gmap string string;
  execute : string → list string → string * option error;
  json_Unmarshal : string → option (gmap string JSON) + error;
  logs : list (string * list string)
}.

(** [log.Printf] and [log.Print]: the format and its arguments. *)
Definition log_Printf (format : string) (arguments : list string) (h : Host) : Host :=
  {| configuration := configuration h; execute := execute h;
     json_Unmarshal := json_Unmarshal h;
     logs := logs h ++ [(format, arguments)] |}.

(** [config.GetString]: the value of a key, or an error of the configuration
    package when the key is not set. *)
Definition config_GetString (key : string) (h : Host) : string + error :=
  match configuration h !! key with
  | Some v => inl v
  | None => inr (foreignError "config" key)
  end.

(** What a call comes to: it returns its pair of results, or it panics. *)
Inductive Outcome (A : Type) : Type :=
  | Returned (value : A) (err : option error) (h : Host)
  | Panic (h : Host).
Arguments Returned {A} value err h.
Arguments Panic {A} h.

(** ** runCmd *)

Definition runCmd (cmd : string) (args : list string) (h : Host)
    : string * option error * Host :=
  let '(out, err) := execute h cmd args in
  (out, err, log_Printf "running the cmd: %s with the args: %s" (cmd :: args) h).

(** ** container.ip *)

Definition msg_inspect : string :=
  "error(%s) trying to inspect docker instance(%s) to get ipaddress".
Definition msg_json : string :=
  "error(%s) parsing json from docker when trying to get ipaddress".
Definition msg_networkSettings : string :=
  "Error when getting container information. NetworkSettings is missing.".
Definition msg_ipaddress : string :=
  "error: Can't get ipaddress...".

(** A map index on a map that may be [nil]. *)
Definition index (m : option (gmap string JSON)) (key : string) : option JSON :=
  m ≫= (.!! key).

Definition ip (c : container) (h : Host) : Outcome string :=
  match config_GetString "docker:binary" h with
  | inr err => Returned "" (Some err) h
  | inl docker =>
      let h := log_Printf "Getting ipaddress to instance %s" [instanceId c] h in
      match runCmd docker ["inspect"; instanceId c] h with
      | (_, Some err, h) =>
          let h := log_Printf msg_inspect [messageOf err] h in
          Returned "" (Some (errorString msg_inspect)) h
      | (instanceJson, None, h) =>
          match json_Unmarshal h instanceJson with
          | inr err =>
              let h := log_Printf msg_json [messageOf err] h in
              Returned "" (Some (errorString msg_json)) h
          | inl result =>
              match index result "NetworkSettings" with
              | None | Some JNull =>
                  let h := log_Printf msg_networkSettings [] h in
                  Returned "" (Some (errorString msg_networkSettings)) h
              | Some (JObject networkSettings) =>
                  match networkSettings !! "IpAddress" with
                  | Some (JString instanceIp) =>
                      if decide (instanceIp = "")
                      then
                        let h := log_Printf msg_ipaddress [] h in
                        Returned "" (Some (errorString msg_ipaddress)) h
                      else
                        let h := log_Printf "Instance IpAddress: %s" [instanceIp] h in
                        Returned instanceIp None h
                  | _ => Panic h
                  end
              | Some _ => Panic h
              end
          end
      end
  end.

(** ** Vocabulary of the statements *)

(** The four ways [ip] can fail once the docker binary is configured. *)
Inductive FailureCause : Type :=
  | InspectFails
  | MalformedJSON
  | NetworkSettingsMissing
  | EmptyAddress.

Global Instance FailureCause_eq_dec : EqDecision FailureCause.
Proof. solve_decision. Defined.

(** The inspect command of a container on a host: its output and error. *)
Definition inspect (c : container) (h : Host) (docker : string)
    : string * option error :=
  execute h docker ["inspect"; instanceId c].

(** The cause is what happens to container [c] on host [h]. *)
Definition occurs (cause : FailureCause) (c : container) (h : Host) : Prop :=
  ∃ docker, config_GetString "docker:binary" h = inl docker ∧
    match cause with
    | InspectFails => is_Some (inspect c h docker).2
    | MalformedJSON =>
        (inspect c h docker).2 = None ∧
        ∃ e, json_Unmarshal h (inspect c h docker).1 = inr e
    | NetworkSettingsMissing =>
        (inspect c h docker).2 = None ∧
        ∃ result, json_Unmarshal h (inspect c h docker).1 = inl result ∧
                  (index result "NetworkSettings" = None ∨
                   index result "NetworkSettings" = Some JNull)
    | EmptyAddress =>
        (inspect c h docker).2 = None ∧
        ∃ result networkSettings,
          json_Unmarshal h (inspect c h docker).1 = inl result ∧
          index result "NetworkSettings" = Some (JObject networkSettings) ∧
          networkSettings !! "IpAddress" = Some (JString "")
    end.

Definition messageFor (cause : FailureCause) : string :=
  match cause with
  | InspectFails => msg_inspect
  | MalformedJSON => msg_json
  | NetworkSettingsMissing => msg_networkSettings
  | EmptyAddress => msg_ipaddress
  end.

(** ** Hosts *)

(** A decoder given by the documents it accepts. *)
Definition decoderOf (documents : list (string * option (gmap string JSON)))
    (input : string) : option (gmap string JSON) + error :=
  match list_find (λ d, d.1 = input) documents with
  | Some (_, (_, result)) => inl result
  | None => inr (foreignError "json" "invalid character")
  end.

Definition documents : list (string * option (gmap string JSON)) :=
  [ ("null", None);
    ("{}", Some ∅);
    ("{NetworkSettings:null}", Some {[ "NetworkSettings" := JNull ]});
    ("{NetworkSettings:{IpAddress:empty}}",
     Some {[ "NetworkSettings" := JObject {[ "IpAddress" := JString "" ]} ]});
    ("{NetworkSettings:{IpAddress:10.10.10.10}}",
     Some {[ "NetworkSettings" :=
               JObject {[ "IpAddress" := JString "10.10.10.10" ]} ]});
    ("{NetworkSettings:{}}", Some {[ "NetworkSettings" := JObject ∅ ]});
    ("{NetworkSettings:12}", Some {[ "NetworkSettings" := JNumber "12" ]}) ].

(** A host whose docker binary answers every inspect with the given output
    and error. *)
Definition hostAnswering (out : string) (err : option error) : Host :=
  {| configuration := {[ "docker:binary" := "/usr/bin/docker" ]};
     execute := λ _ _, (out, err);
     json_Unmarshal := decoderOf documents;
     logs := [] |}.

Definition aContainer : container := {| name := "myapp"; instanceId := "c0ffee" |}.

(** The host an operation leaves behind, whether it returns or panics. *)
Definition hostAfter {A} (o : Outcome A) : Host :=
  match o with
  | Returned _ _ h => h
  | Panic h => h
  end.

(** ** The other operations of a container *)

(** [config.GetList]: the list-valued settings are kept apart from the
    string-valued ones; an unset key is an error of the configuration
    package. *)
Definition config_GetList (key : string) (lists : gmap string (list string))
    : list string + error :=
  match lists !! key with
  | Some l => inl l
  | None => inr (foreignError "config" key)
  end.

Definition newline : ascii := "010"%char.

(** [strings.Replace(s, old, new, -1)] with a one-character [old]: every
    occurrence is replaced. *)
Fixpoint strings_Replace (s : string) (old : ascii) (new : string) : string :=
  match s with
  | EmptyString => EmptyString
  | String c rest =>
      if decide (c = old) then new +:+ strings_Replace rest old new
      else String c (strings_Replace rest old new)
  end.

(** The characters of a string. *)
Definition chars (s : string) : list ascii := String.list_ascii_of_string s.

(** [create]. *)
Definition create (c : container) (lists : gmap string (list string))
    (h : Host) : Outcome string :=
  match config_GetString "docker:binary" h with
  | inr err => Returned "" (Some err) h
  | inl docker =>
      match config_GetString "docker:image" h with
      | inr err => Returned "" (Some err) h
      | inl template =>
          match config_GetString "docker:cmd:bin" h with
          | inr err => Returned "" (Some err) h
          | inl cmd =>
              match config_GetList "docker:cmd:args" lists with
              | inr err => Returned "" (Some err) h
              | inl args =>
                  let args := (["run"; "-d"; template; cmd] ++ args)%list in
                  let '(instanceId, err, h) := runCmd docker args h in
                  let instanceId := strings_Replace instanceId newline "" in
                  let h := log_Printf "docker instanceId=%s" [instanceId] h in
                  Returned instanceId err h
              end
          end
      end
  end.

(** [start]: nothing to do after [docker run]. *)
Definition start (c : container) (h : Host) : option error * Host := (None, h).

(** [stop]. *)
Definition stop (c : container) (h : Host) : option error * Host :=
  match config_GetString "docker:binary" h with
  | inr err => (Some err, h)
  | inl docker =>
      let h := log_Printf "trying to stop instance %s" [instanceId c] h in
      let '(output, err, h) := runCmd docker ["stop"; instanceId c] h in
      let h := log_Printf "docker stop=%s" [output] h in
      (err, h)
  end.

(** [destroy]. *)
Definition destroy (c : container) (h : Host) : option error * Host :=
  match config_GetString "docker:binary" h with
  | inr err => (Some err, h)
  | inl docker =>
      let h := log_Printf "trying to destroy instance %s" [instanceId c] h in
      let '(_, err, h) := runCmd docker ["rm"; instanceId c] h in
      (err, h)
  end.

(** [commit]. *)
Definition commit (c : container) (imgName : string) (h : Host)
    : option error * Host :=
  match config_GetString "docker:binary" h with
  | inr err => (Some err, h)
  | inl docker =>
      match config_GetString "docker:registry-user" h with
      | inr err => (Some err, h)
      | inl registryUser =>
          let h := log_Printf "attempting to commit image from container %s"
                     [instanceId c] h in
          let imgName := registryUser +:+ "/" +:+ imgName in
          let '(_, err, h) := runCmd docker ["commit"; instanceId c; imgName] h in
          match err with
          | Some e =>
              (Some e, log_Printf "Could not commit docker image: %s" [messageOf e] h)
          | None => (None, h)
          end
      end
  end.

(** The line [runCmd] logs for a command. *)
Definition commandLine (cmd : string) (args : list string)
    : string * list string :=
  ("running the cmd: %s with the args: %s", cmd :: args).

(** A host with every setting of the package and list-valued settings. *)
Definition configuredHost (out : string) (err : option error) : Host :=
  {| configuration :=
       <[ "docker:binary" := "/usr/bin/docker" ]>
       (<[ "docker:image" := "tsuru/python" ]>
        (<[ "docker:cmd:bin" := "/usr/sbin/sshd" ]>
         {[ "docker:registry-user" := "tsuru" ]}));
     execute := λ _ _, (out, err);
     json_Unmarshal := decoderOf documents;
     logs := [] |}.

Definition configuredLists : gmap string (list string) :=
  {[ "docker:cmd:args" := ["-D"] ]}.

End Docker.

(** * Properties of the deployment pipeline *)

Module SwarmProofs.
Import Swarm.

(** ** The collaborators keep the fault plan and touch one thing each *)

Lemma deploy_spec a p img w :
  deploy a p img w =
    match faults w (CallDeploy a p img) with
    | Some e => (Some e, record_call (CallDeploy a p img) w)
    | None =>
        (None, set_services (<[(a, p) := img]> (services w))
                 (record_call (CallDeploy a p img) w))
    end.
Proof. reflexivity. Qed.

(** One step of the rollback, unfolded down to the answer of the
    cluster. *)
Local Ltac rollback_step :=
  unfold rollbackProcess, rollbackCall, rollbackTarget, deploy, removeService;
  repeat (case_decide || case_match || simplify_eq /=); done.

Lemma rollbackProcess_faults args p w :
  faults (rollbackProcess args p w) = faults w.
Proof. rollback_step. Qed.

Lemma rollbackProcess_imageHistory args p w :
  imageHistory (rollbackProcess args p w) = imageHistory w.
Proof. rollback_step. Qed.

Lemma rollbackProcess_calls args p w :
  calls (rollbackProcess args p w) = (calls w ++ [rollbackCall args p])%list.
Proof. rollback_step. Qed.

Lemma rollbackProcess_services args p w :
  services (rollbackProcess args p w) =
    match faults w (rollbackCall args p) with
    | Some _ => services w
    | None => partial_alter (λ _, rollbackTarget args p) (app args, p) (services w)
    end.
Proof. rollback_step. Qed.

(** ** rollbackAddedProcesses *)

Lemma rollback_faults args l w :
  faults (rollbackAddedProcesses args l w) = faults w.
Proof.
  revert w. induction l as [|p l IH]; intros w; simpl; [done|].
  by rewrite IH, rollbackProcess_faults.
Qed.

Lemma rollback_imageHistory args l w :
  imageHistory (rollbackAddedProcesses args l w) = imageHistory w.
Proof.
  revert w. induction l as [|p l IH]; intros w; simpl; [done|].
  by rewrite IH, rollbackProcess_imageHistory.
Qed.

Lemma rollback_calls args l w :
  calls (rollbackAddedProcesses args l w) =
    (calls w ++ (rollbackCall args <$> l))%list.
Proof.
  revert w. induction l as [|p l IH]; intros w; simpl.
  - by rewrite app_nil_r.
  - by rewrite IH, rollbackProcess_calls, <-app_assoc.
Qed.

(** A Service is rewritten by the rollback exactly when it belongs to the
    app and to a listed process whose request the cluster accepts; it then
    is what the current image asks for. *)
Lemma rollback_lookup args l w a q :
  services (rollbackAddedProcesses args l w) !! (a, q) =
    if decide (a = app args ∧ q ∈ l ∧ faults w (rollbackCall args q) = None)
    then rollbackTarget args q
    else services w !! (a, q).
Proof.
  revert w. induction l as [|p l IH]; intros w; simpl.
  - case_decide as Hc; [|done]. destruct Hc as (_ & Hin & _). by inversion Hin.
  - rewrite IH, rollbackProcess_faults, rollbackProcess_services.
    destruct (decide (a = app args ∧ q ∈ l ∧ faults w (rollbackCall args q) = None))
      as [(-> & Hin & Hf)|Hn].
    + rewrite decide_True; [done|]. split_and!; [done| |done]. by right.
    + destruct (decide (a = app args ∧ q = p ∧ faults w (rollbackCall args q) = None))
        as [(-> & -> & Hf)|Hn'].
      * rewrite Hf, lookup_partial_alter, decide_True by done.
        rewrite decide_True; [done|]. split_and!; [done| |done]. by left.
      * rewrite decide_False.
        2:{ intros (-> & Hin & Hf). apply elem_of_cons in Hin as [->|Hin]; tauto. }
        destruct (faults w (rollbackCall args p)) eqn:Hp; [done|].
        rewrite lookup_partial_alter, decide_False; [done|].
        intros [= <- <-]. tauto.
Qed.

(** ** The deployment loop *)

Lemma deployedTo_refl args w : deployedTo args [] [] w w.
Proof.
  unfold deployedTo. rewrite app_nil_r. split_and!; try done.
  intros a q. rewrite decide_False; [done|]. intros [_ Hin]. by inversion Hin.
Qed.

Lemma deployedTo_step args p l cs w w1 :
  faults w (deployCall args p) = None →
  deployedTo args l cs
    (set_services (<[(app args, p) := newImage args]> (services w))
       (record_call (deployCall args p) w)) w1 →
  deployedTo args (p :: l) (deployCall args p :: cs) w w1.
Proof.
  intros Hp (Hf & Hh & Hl & Hc & Hs). unfold deployedTo. simpl in *.
  split_and!; try done.
  - by rewrite Hc, <-app_assoc.
  - intros a q. rewrite Hs.
    destruct (decide (a = app args ∧ q ∈ l)) as [[-> Hin]|Hn].
    + rewrite decide_True; [done|]. split; [done|by right].
    + destruct (decide ((a, q) = (app args, p))) as [[= -> ->]|Hne].
      * rewrite lookup_insert_eq, decide_True; [done|]. split; [done|by left].
      * rewrite lookup_insert_ne by done. rewrite decide_False; [done|].
        intros [-> [->|Hin]%elem_of_cons]; tauto.
Qed.

(** Every request accepted: the loop deploys the whole list. *)
Lemma deployLoop_ok args l acc w :
  (∀ q, q ∈ l → faults w (deployCall args q) = None) →
  ∃ w1, deployLoop args l acc w = ((acc ++ l)%list, None, w1) ∧
        deployedTo args l (deployCall args <$> l) w w1.
Proof.
  revert acc w. induction l as [|p l IH]; intros acc w Hok; simpl.
  - exists w. rewrite app_nil_r. split; [done|]. apply deployedTo_refl.
  - rewrite deploy_spec.
    assert (faults w (deployCall args p) = None) as Hp by (apply Hok; by left).
    unfold deployCall in Hp. rewrite Hp.
    edestruct (IH (acc ++ [p])%list) as (w1 & Heq & Hrel); last first.
    + exists w1. rewrite Heq, <-app_assoc. split; [done|].
      by apply deployedTo_step.
    + intros q Hq. simpl. apply Hok. by right.
Qed.

(** A rejected request: the loop stops there, with the processes before it
    deployed and none after it requested. *)
Lemma deployLoop_fail args pre p post e acc w :
  (∀ q, q ∈ pre → faults w (deployCall args q) = None) →
  faults w (deployCall args p) = Some e →
  ∃ w1, deployLoop args (pre ++ p :: post) acc w = ((acc ++ pre)%list, Some e, w1) ∧
        deployedTo args pre ((deployCall args <$> pre) ++ [deployCall args p]) w w1.
Proof.
  revert acc w. induction pre as [|p' pre IH]; intros acc w Hok Hp; simpl.
  - rewrite deploy_spec. unfold deployCall in Hp. rewrite Hp.
    eexists. rewrite app_nil_r. split; [done|].
    unfold deployedTo; simpl. split_and!; try done.
    intros a q. rewrite decide_False; [done|]. intros [_ Hin]. by inversion Hin.
  - rewrite deploy_spec.
    assert (faults w (deployCall args p') = None) as Hp' by (apply Hok; by left).
    unfold deployCall in Hp'. rewrite Hp'.
    edestruct (IH (acc ++ [p'])%list) as (w1 & Heq & Hrel); last first.
    + exists w1. rewrite Heq, <-app_assoc. split; [done|].
      by apply deployedTo_step.
    + done.
    + intros q Hq. simpl. apply Hok. by right.
Qed.

(** A list of requests is accepted as a whole, or has a first rejected
    one. *)
Lemma first_fault (f : string → option error) (l : list string) :
  (∀ q, q ∈ l → f q = None) ∨
  ∃ pre p post e, l = (pre ++ p :: post)%list ∧
                  (∀ q, q ∈ pre → f q = None) ∧ f p = Some e.
Proof.
  induction l as [|p l [IH|(pre & p' & post & e & -> & Hpre & Hp')]].
  - left. intros q Hq. by inversion Hq.
  - destruct (f p) as [e|] eqn:Hp.
    + right. exists [], p, l, e. split_and!; [done| |done].
      intros q Hq. by inversion Hq.
    + left. intros q [->|Hq]%elem_of_cons; auto.
  - destruct (f p) as [e0|] eqn:Hp.
    + right. exists [], p, (pre ++ p' :: post)%list, e0. split_and!; [done| |done].
      intros q Hq. by inversion Hq.
    + right. exists (p :: pre), p', post, e. split_and!; [done| |done].
      intros q [->|Hq]%elem_of_cons; auto.
Qed.

(** ** The order of deployment *)

Lemma toDeployProcesses_sorted args :
  StronglySorted String.le (toDeployProcesses args).
Proof. apply (StronglySorted_merge_sort _). Qed.

Lemma toDeployProcesses_perm args :
  toDeployProcesses args ≡ₚ rangeKeys (Processes (newImgData args)).
Proof. apply merge_sort_Permutation. Qed.

Lemma toDeployProcesses_NoDup args : NoDup (toDeployProcesses args).
Proof.
  rewrite toDeployProcesses_perm. apply NoDup_fst_map_to_list.
Qed.

Lemma elem_of_toDeployProcesses args q :
  q ∈ toDeployProcesses args ↔ q ∈ dom (Processes (newImgData args)).
Proof.
  rewrite toDeployProcesses_perm. unfold rangeKeys.
  rewrite elem_of_dom, list_elem_of_fmap. split.
  - intros ([k v] & -> & Hin). apply elem_of_map_to_list in Hin. by exists v.
  - intros [v Hv]. exists (q, v). split; [done|]. by apply elem_of_map_to_list.
Qed.

(** ** remove-old-services *)

Lemma elem_of_oldProcesses args q :
  q ∈ oldProcesses args ↔
  q ∈ dom (Processes (currentImgData args)) ∖ dom (Processes (newImgData args)).
Proof. unfold oldProcesses, set_FromMap. apply elem_of_elements. Qed.

Lemma removeOldProcess_spec args p w :
  removeOldProcess args p w =
    match faults w (CallRemoveService (app args) p) with
    | Some e =>
        log_Errorf ignored_format [app args; p; messageOf e]
          (record_call (CallRemoveService (app args) p) w)
    | None =>
        set_services (delete (app args, p) (services w))
          (record_call (CallRemoveService (app args) p) w)
    end.
Proof.
  unfold removeOldProcess, removeService. simpl.
  by destruct (faults w (CallRemoveService (app args) p)).
Qed.

Lemma removeOld_loop args l w :
  let w' := foldl (λ w p, removeOldProcess args p w) w l in
  faults w' = faults w ∧
  imageHistory w' = imageHistory w ∧
  calls w' = (calls w ++ (CallRemoveService (app args) <$> l))%list ∧
  logs w' = (logs w ++ omap (ignoredLine args w) l)%list ∧
  ∀ a q, services w' !! (a, q) =
           if decide (a = app args ∧ q ∈ l ∧
                      faults w (CallRemoveService (app args) q) = None)
           then None else services w !! (a, q).
Proof.
  revert w. induction l as [|p l IH]; intros w; simpl.
  - rewrite !app_nil_r. split_and!; try done.
    intros a q. rewrite decide_False; [done|]. intros (_ & Hin & _). by inversion Hin.
  - destruct (IH (removeOldProcess args p w)) as (Hf & Hh & Hc & Hl & Hs).
    rewrite Hf, Hh, Hc, Hl. clear Hf Hh Hc Hl.
    rewrite removeOldProcess_spec in *. unfold ignoredLine at 2.
    assert (∀ w0, ignoredLine args
              match faults w (CallRemoveService (app args) p) with
              | Some e => log_Errorf ignored_format [app args; p; messageOf e] w0
              | None => set_services (delete (app args, p) (services w)) w0
              end = ignoredLine args w0) as Hil.
    { intros w0. by destruct (faults w _). }
    destruct (faults w (CallRemoveService (app args) p)) as [e|] eqn:Hp; simpl.
    + split_and!; try done.
      * by rewrite <-app_assoc.
      * by rewrite <-app_assoc.
      * intros a q. rewrite Hs. simpl.
        apply decide_ext. split.
        -- intros (-> & Hin & Hq). split_and!; [done|by right|done].
        -- intros (-> & [->|Hin]%elem_of_cons & Hq); [congruence|done].
    + split_and!; try done.
      * by rewrite <-app_assoc.
      * intros a q. rewrite Hs. simpl.
        destruct (decide (a = app args ∧ q ∈ l ∧
                          faults w (CallRemoveService (app args) q) = None))
          as [(-> & Hin & Hq)|Hn].
        -- rewrite decide_True; [done|]. split_and!; [done|by right|done].
        -- destruct (decide ((a, q) = (app args, p))) as [[= -> ->]|Hne].
           ++ rewrite lookup_delete_eq, decide_True; [done|].
              split_and!; [done|by left|done].
           ++ rewrite lookup_delete_ne by done. rewrite decide_False; [done|].
              intros (-> & [->|Hin]%elem_of_cons & Hq); tauto.
Qed.

(** ** The run of the deployment pipeline, step by step *)

Lemma deployPipeline_run args w :
  pipeline_Execute deployPipeline args w =
    match deployLoop args (toDeployProcesses args) [] w with
    | (deployed, Some e, w1) =>
        Failed e (rollbackAddedProcesses args deployed w1)
    | (deployed, None, w1) =>
        match AppendAppImageName (app args) (newImage args) w1 with
        | (Some e, w2) =>
            Failed (errors_Wrap e "") (rollbackAddedProcesses args deployed w2)
        | (None, w2) =>
            Completed (foldl (λ w p, removeOldProcess args p w) w2
                         (oldProcesses args))
        end
    end.
Proof.
  unfold pipeline_Execute, deployPipeline. simpl.
  unfold updateServices_Forward. simpl.
  destruct (deployLoop args (toDeployProcesses args) [] w) as [[deployed [e|]] w1];
    simpl; [done|].
  unfold updateImageInDB_Forward. simpl.
  destruct (AppendAppImageName (app args) (newImage args) w1) as [[e|] w2];
    simpl; done.
Qed.

Lemma elem_of_running a p w :
  p ∈ running a w ↔ is_Some (services w !! (a, p)).
Proof.
  unfold running. rewrite elem_of_map. split.
  - intros ([a' p'] & -> & Hin). apply elem_of_filter in Hin as [Ha Hin].
    simpl in *. subst. by apply elem_of_dom.
  - intros Hs. exists (a, p). split; [done|].
    apply elem_of_filter. split; [done|]. by apply elem_of_dom.
Qed.

(** ** The claims on the deployment pipeline *)

(** While the fault plan is the same, a second run of the rollback changes
    no Service. *)
Lemma rollback_twice_same_plan (args : pipelineArgs) (processes : list string)
    (w : Cluster) :
  services (rollbackAddedProcesses args processes
              (rollbackAddedProcesses args processes w)) =
  services (rollbackAddedProcesses args processes w).
Proof.
  apply map_eq. intros [a q].
  rewrite !rollback_lookup, rollback_faults.
  by case_decide.
Qed.

(** C9. For every recorded list of deployed process names and in every
    state of the cluster, running [rollbackAddedProcesses] a second time
    over the list, when the collaborators answer by the fault plan [again],
    leaves the same Services as running it once, provided that every request
    of the rollback that was rejected in the first run is rejected again in
    the second. *)
Theorem C9_rollback_twice_is_once (args : pipelineArgs) (processes : list string)
    (w : Cluster) (again : Call → option error) :
  (∀ p, p ∈ processes →
     is_Some (faults w (rollbackCall args p)) →
     is_Some (again (rollbackCall args p))) →
  services (rollbackAddedProcesses args processes
              (set_faults again (rollbackAddedProcesses args processes w))) =
  services (rollbackAddedProcesses args processes w).
Proof.
  intros Hagain. apply map_eq. intros [a q].
  rewrite (rollback_lookup args processes (set_faults again _)). simpl.
  case_decide as Hc; [|done].
  destruct Hc as (-> & Hin & Hacc).
  rewrite rollback_lookup.
  rewrite decide_True; [done|]. split_and!; [done..|].
  destruct (faults w (rollbackCall args q)) as [e|] eqn:Hf; [|done].
  destruct (Hagain q Hin) as [e' He']; [by eexists|]. congruence.
Qed.

(** ** Requests issued by a run *)

Lemma issued_app w w' cs : calls w' = (calls w ++ cs)%list → issued w w' = cs.
Proof. intros Hc. unfold issued. by rewrite Hc, drop_app_length. Qed.

Lemma append_not_deployCall args a img (l : list string) :
  CallAppendAppImageName a img ∉ deployCall args <$> l.
Proof. by intros (q & [=] & _)%list_elem_of_fmap. Qed.

Lemma append_not_rollbackCall args a img (l : list string) :
  CallAppendAppImageName a img ∉ rollbackCall args <$> l.
Proof.
  intros (q & Heq & _)%list_elem_of_fmap.
  unfold rollbackCall in Heq. by case_decide.
Qed.

Lemma deployCall_not_rollback_of_other args q (pre : list string) :
  q ∉ pre → deployCall args q ∉ rollbackCall args <$> pre.
Proof.
  intros Hq [q' [Heq Hin]]%list_elem_of_fmap.
  unfold deployCall, rollbackCall in Heq. case_decide; simplify_eq. done.
Qed.

(** C2. [update-services.Forward] deploys the processes of the new image
    in ascending byte-wise lexicographic order of their names: when every
    request is accepted, the requests of the run are the deployments of all
    of them in that order. When the request for the k-th of them is the
    first one rejected, the requests of the run are the deployments of the
    first k-1 processes and of the k-th, followed by the rollback requests
    for the first k-1 in the same order: a deployment at the current image
    when the current image defines the process, the removal of its Service
    when it does not. No process after the k-th is deployed, each rollback
    request the cluster accepts leaves the Service as asked, and the step
    returns the error of the rejected deployment. *)
Theorem C2_update_services_rolls_back (args : pipelineArgs) (previous : Result)
    (w : Cluster) :
  let all := toDeployProcesses args in
  let ctx := {| Params := args; Previous := previous |} in
  StronglySorted String.le all ∧
  NoDup all ∧
  (∀ q, q ∈ all ↔ q ∈ dom (Processes (newImgData args))) ∧
  ((∀ q, q ∈ all → faults w (deployCall args q) = None) →
   ∃ w', updateServices_Forward ctx w = (inl (Some all), w') ∧
         issued w w' = deployCall args <$> all) ∧
  (∀ pre p post e,
     all = (pre ++ p :: post)%list →
     (∀ q, q ∈ pre → faults w (deployCall args q) = None) →
     faults w (deployCall args p) = Some e →
     ∃ w', updateServices_Forward ctx w = (inr e, w') ∧
           issued w w' = ((deployCall args <$> pre) ++ [deployCall args p] ++
                          (rollbackCall args <$> pre))%list ∧
           (∀ q, q ∈ post → deployCall args q ∉ issued w w') ∧
           (∀ q, q ∈ pre → faults w (rollbackCall args q) = None →
                 services w' !! (app args, q) = rollbackTarget args q)).
Proof.
  cbv zeta.
  split; [apply toDeployProcesses_sorted|].
  split; [apply toDeployProcesses_NoDup|].
  split; [intros q; apply elem_of_toDeployProcesses|].
  split.
  { intros Hok.
    destruct (deployLoop_ok args (toDeployProcesses args) [] w Hok)
      as (w1 & Hloop & _ & _ & _ & Hc & _).
    unfold updateServices_Forward. simpl. rewrite Hloop. simpl.
    exists w1. split; [done|]. by apply issued_app. }
  intros pre p post e Hsplit Hpre Hp.
  pose proof (toDeployProcesses_NoDup args) as Hnd. rewrite Hsplit in Hnd.
  apply NoDup_app in Hnd as (Hnd1 & Hnd2 & Hnd3).
  apply NoDup_cons in Hnd3 as [Hp_post _].
  destruct (deployLoop_fail args pre p post e [] w Hpre Hp)
    as (w1 & Hloop & Hf & Hh & Hl & Hc & Hs).
  unfold updateServices_Forward. simpl. rewrite Hsplit, Hloop. simpl.
  eexists. split; [done|].
  assert (issued w (rollbackAddedProcesses args pre w1) =
            ((deployCall args <$> pre) ++ [deployCall args p] ++
             (rollbackCall args <$> pre))%list) as Hissued.
  { apply issued_app. by rewrite rollback_calls, Hc, <-!app_assoc. }
  split; [done|]. split.
  - intros q Hq. rewrite Hissued. rewrite !elem_of_app.
    intros [Hin|[Hin|Hin]].
    + apply list_elem_of_fmap in Hin as (q' & [=] & Hin'). subst q'.
      apply (Hnd2 q); [done|]. by right.
    + apply list_elem_of_singleton in Hin as [=]. by subst q.
    + revert Hin. apply deployCall_not_rollback_of_other.
      intros Hin. apply (Hnd2 q); [done|]. by right.
  - intros q Hq Hrq. rewrite rollback_lookup, Hf.
    by rewrite decide_True.
Qed.

(** The three ways a run of the pipeline can go: a deployment is rejected;
    the history record is rejected; everything up to the removals is
    accepted. *)
Lemma deployPipeline_cases args w :
  let all := toDeployProcesses args in
  (∃ pre p post e w1,
      all = (pre ++ p :: post)%list ∧
      (∀ q, q ∈ pre → faults w (deployCall args q) = None) ∧
      faults w (deployCall args p) = Some e ∧
      deployedTo args pre ((deployCall args <$> pre) ++ [deployCall args p]) w w1 ∧
      pipeline_Execute deployPipeline args w =
        Failed e (rollbackAddedProcesses args pre w1)) ∨
  (∃ e w1,
      (∀ q, q ∈ all → faults w (deployCall args q) = None) ∧
      faults w (appendCall args) = Some e ∧
      deployedTo args all (deployCall args <$> all) w w1 ∧
      pipeline_Execute deployPipeline args w =
        Failed (errors_Wrap e "")
          (rollbackAddedProcesses args all (record_call (appendCall args) w1))) ∨
  (∃ w1,
      (∀ q, q ∈ all → faults w (deployCall args q) = None) ∧
      faults w (appendCall args) = None ∧
      deployedTo args all (deployCall args <$> all) w w1 ∧
      pipeline_Execute deployPipeline args w =
        Completed (foldl (λ w p, removeOldProcess args p w)
                     (push_image (app args) (newImage args)
                        (record_call (appendCall args) w1))
                     (oldProcesses args))).
Proof.
  intros all. rewrite deployPipeline_run. fold all.
  destruct (first_fault (λ q, faults w (deployCall args q)) all)
    as [Hok|(pre & p & post & e & Hall & Hpre & Hp)].
  - destruct (deployLoop_ok args all [] w Hok) as (w1 & Hloop & Hrel).
    rewrite Hloop. simpl. unfold AppendAppImageName. simpl.
    assert (faults w1 = faults w) as Hf by apply Hrel.
    rewrite Hf. change (CallAppendAppImageName _ _) with (appendCall args).
    destruct (faults w (appendCall args)) as [e|] eqn:Ha.
    + right; left. by exists e, w1.
    + right; right. by exists w1.
  - left. destruct (deployLoop_fail args pre p post e [] w Hpre Hp)
      as (w1 & Hloop & Hrel).
    rewrite Hall, Hloop. simpl. by exists pre, p, post, e, w1.
Qed.

(** The Services of the app after a completed run. *)
Lemma completed_run_lookup args w w' q :
  pipeline_Execute deployPipeline args w = Completed w' →
  services w' !! (app args, q) =
    if decide (q ∈ dom (Processes (newImgData args)))
    then Some (newImage args)
    else if decide (q ∈ dom (Processes (currentImgData args)) ∧
                    faults w (CallRemoveService (app args) q) = None)
         then None
         else services w !! (app args, q).
Proof.
  intros Hrun.
  destruct (deployPipeline_cases args w)
    as [(pre & p & post & e & w1 & _ & _ & _ & _ & Heq)
       |[(e & w1 & _ & _ & _ & Heq)|(w1 & Hok & Ha & Hrel & Heq)]];
    rewrite Heq in Hrun; try discriminate.
  injection Hrun as <-.
  destruct Hrel as (Hf & _ & _ & _ & Hs).
  match goal with |- context [foldl ?f ?w0 ?l] =>
    destruct (removeOld_loop args l w0) as (_ & _ & _ & _ & Hs') end.
  simpl in Hs'. rewrite Hf in Hs'. rewrite Hs', Hs.
  destruct (decide (q ∈ dom (Processes (newImgData args)))) as [Hn|Hn].
  - rewrite decide_False.
    2:{ intros (_ & Hin%elem_of_oldProcesses & _).
        by apply elem_of_difference in Hin as [? ?]. }
    rewrite decide_True; [done|].
    split; [done|]. by apply elem_of_toDeployProcesses.
  - destruct (decide (q ∈ dom (Processes (currentImgData args)) ∧
                      faults w (CallRemoveService (app args) q) = None))
      as [[Hc Hq]|Hc].
    + rewrite decide_True; [done|]. split_and!; [done| |done].
      by apply elem_of_oldProcesses, elem_of_difference.
    + rewrite decide_False.
      2:{ intros (_ & Hin%elem_of_oldProcesses & Hq).
          apply elem_of_difference in Hin as [? ?]. by apply Hc. }
      rewrite decide_False; [done|].
      intros [_ Hin]. by apply elem_of_toDeployProcesses in Hin.
Qed.

(** C1, as amended. When the pipeline completes and the Services that ran
    for the app before the run belonged to processes of the current or of
    the new image, the processes of the app with a running Service are the
    processes of the new image, each bound to the new image, together with
    the processes that only the current image has, had a Service and whose
    removal the cluster rejected. They are exactly the processes of the new
    image when the cluster accepts the removal of every process that only
    the current image has. *)
Theorem C1_completed_run_services (args : pipelineArgs) (w w' : Cluster) :
  let new := dom (Processes (newImgData args)) in
  let current := dom (Processes (currentImgData args)) in
  pipeline_Execute deployPipeline args w = Completed w' →
  running (app args) w ⊆ current ∪ new →
  (∀ p, p ∈ running (app args) w' ↔
        p ∈ new ∨
        (p ∈ current ∖ new ∧ p ∈ running (app args) w ∧
         is_Some (faults w (CallRemoveService (app args) p)))) ∧
  (∀ p, p ∈ new → services w' !! (app args, p) = Some (newImage args)) ∧
  ((∀ p, p ∈ current ∖ new → faults w (CallRemoveService (app args) p) = None) →
   running (app args) w' = new).
Proof.
  intros new current Hrun Hinit.
  assert (∀ p, p ∈ running (app args) w' ↔
            p ∈ new ∨
            (p ∈ current ∖ new ∧ p ∈ running (app args) w ∧
             is_Some (faults w (CallRemoveService (app args) p)))) as Hchar.
  { intros p.
    rewrite (elem_of_running _ _ w'), (completed_run_lookup _ _ _ _ Hrun).
    fold new current.
    destruct (decide (p ∈ new)) as [Hn|Hn]; [split; eauto|].
    destruct (decide (p ∈ current ∧ _)) as [[Hc Hq]|Hc].
    - split; [by intros []%is_Some_None|].
      intros [?|(_ & _ & Hrej)]; [done|]. rewrite Hq in Hrej.
      by apply is_Some_None in Hrej.
    - split.
      + intros Hr%elem_of_running. right.
        assert (p ∈ current) as Hcur.
        { by pose proof (Hinit _ Hr) as [?|?]%elem_of_union. }
        split_and!; [by apply elem_of_difference|done|].
        destruct (faults w (CallRemoveService (app args) p)) eqn:Hq;
          [by eexists|]. by destruct Hc.
      + intros [?|(_ & Hsome & _)]; [done|]. by apply elem_of_running. }
  split; [exact Hchar|]. split.
  - intros p Hp. rewrite (completed_run_lookup _ _ _ _ Hrun).
    by rewrite decide_True.
  - intros Hrm. apply set_eq. intros p. rewrite Hchar. split; [|by left].
    intros [?|(Hold & _ & Hrej)]; [done|].
    rewrite Hrm in Hrej by done. by apply is_Some_None in Hrej.
Qed.

(** C3. In every run of the deployment pipeline the request to record the
    new image in the history of the app comes after the deployment of every
    process of the new image was requested and accepted. If a deployment is
    rejected, the run fails with the error of a rejected deployment, the
    request to record the image is never issued and the history is as
    before the run; and whenever the history has changed, it has gained the
    new image and every process of the new image has a Service bound to
    it. The run never panics. *)
Theorem C3_history_written_after_full_deployment (args : pipelineArgs)
    (w : Cluster) :
  let append := appendCall args in
  let run := pipeline_Execute deployPipeline args w in
  let new := dom (Processes (newImgData args)) in
  is_Some (finalWorld run) ∧
  ∀ w', finalWorld run = Some w' →
    ((∃ p, p ∈ new ∧ is_Some (faults w (deployCall args p))) →
       (∃ q e, q ∈ new ∧ faults w (deployCall args q) = Some e ∧
               run = Failed e w') ∧
       imageHistory w' = imageHistory w ∧
       append ∉ issued w w') ∧
    (append ∈ issued w w' →
       (∀ p, p ∈ new → faults w (deployCall args p) = None) ∧
       ∃ rest, issued w w' =
                 ((deployCall args <$> toDeployProcesses args) ++ append :: rest)%list) ∧
    (imageHistory w' = imageHistory w ∨
     imageHistory w' = (imageHistory w ++ [(app args, newImage args)])%list ∧
     append ∈ issued w w' ∧
     ∀ p, p ∈ new → services w' !! (app args, p) = Some (newImage args)).
Proof.
  cbv zeta.
  destruct (deployPipeline_cases args w)
    as [(pre & p & post & e & w1 & Hall & Hpre & Hp & Hrel & Heq)
       |[(e & w1 & Hok & Ha & Hrel & Heq)|(w1 & Hok & Ha & Hrel & Heq)]];
    rewrite Heq; simpl;
    (split; [by eexists|]); intros w' [= <-];
    destruct Hrel as (Hf & Hh & Hl & Hc & Hs).
  - (* a deployment is rejected *)
    assert (issued w (rollbackAddedProcesses args pre w1) =
              (((deployCall args <$> pre) ++ [deployCall args p]) ++
               (rollbackCall args <$> pre))%list) as Hi.
    { apply issued_app. by rewrite rollback_calls, Hc, <-!app_assoc. }
    assert ((appendCall args) ∉ issued w (rollbackAddedProcesses args pre w1)) as Hnot.
    { rewrite Hi, !elem_of_app. intros [[Hin|Hin]|Hin].
      - by apply append_not_deployCall in Hin.
      - by apply list_elem_of_singleton in Hin.
      - by apply append_not_rollbackCall in Hin. }
    split_and!.
    + intros _. split_and!; [|by rewrite rollback_imageHistory|done].
      exists p, e. split_and!; [|done..].
      apply elem_of_toDeployProcesses. rewrite Hall, elem_of_app. right. by left.
    + done.
    + left. by rewrite rollback_imageHistory.
  - (* the history record is rejected *)
    assert (issued w (rollbackAddedProcesses args (toDeployProcesses args)
                        (record_call (appendCall args) w1)) =
              ((deployCall args <$> toDeployProcesses args) ++
               (appendCall args) :: (rollbackCall args <$> toDeployProcesses args))%list) as Hi.
    { apply issued_app. rewrite rollback_calls. simpl.
      by rewrite Hc, <-!app_assoc. }
    split_and!.
    + intros (q & Hq & [e' He']). apply elem_of_toDeployProcesses in Hq.
      rewrite Hok in He' by done. discriminate.
    + intros _. split; [|by eexists].
      intros q Hq. by apply Hok, elem_of_toDeployProcesses.
    + left. by rewrite rollback_imageHistory.
  - (* the record is written, the removals follow *)
    match goal with |- context [foldl ?f ?w0 ?l] =>
      destruct (removeOld_loop args l w0) as (_ & Hh' & Hc' & _ & Hs') end.
    simpl in Hh', Hc', Hs'.
    assert (issued w (foldl (λ w p, removeOldProcess args p w)
                        (push_image (app args) (newImage args)
                           (record_call (appendCall args) w1)) (oldProcesses args)) =
              ((deployCall args <$> toDeployProcesses args) ++
               (appendCall args) :: (CallRemoveService (app args) <$> oldProcesses args))%list)
      as Hi.
    { apply issued_app. by rewrite Hc', Hc, <-!app_assoc. }
    split_and!.
    + intros (q & Hq & [e' He']). apply elem_of_toDeployProcesses in Hq.
      rewrite Hok in He' by done. discriminate.
    + intros _. split; [|by eexists].
      intros q Hq. by apply Hok, elem_of_toDeployProcesses.
    + right. split_and!.
      * by rewrite Hh', Hh.
      * rewrite Hi, elem_of_app. right. by left.
      * intros q Hq. rewrite Hs', Hs.
        rewrite decide_False.
        2:{ intros (_ & Hin%elem_of_oldProcesses & _).
            by apply elem_of_difference in Hin as [? ?]. }
        rewrite decide_True; [done|].
        split; [done|]. by apply elem_of_toDeployProcesses.
Qed.

(** C4. [remove-old-services.Forward] requests the removal of the Service
    of every process that the current image has and the new image has not,
    each once, whatever the answers to the other requests; an accepted
    removal leaves no Service for the process, a rejected one leaves the
    Service as it was and one line in the log; the step returns success
    with a [nil] result. So a run in which every deployment and the history
    record are accepted completes, whatever happens to the removals. *)
Theorem C4_remove_old_services_swallows_failures (args : pipelineArgs)
    (previous : Result) (w : Cluster) :
  let old := dom (Processes (currentImgData args)) ∖
             dom (Processes (newImgData args)) in
  (∃ w', removeOldServices_Forward {| Params := args; Previous := previous |} w
           = (inl None, w') ∧
         issued w w' ≡ₚ CallRemoveService (app args) <$> elements old ∧
         (∀ p, p ∈ old → CallRemoveService (app args) p ∈ issued w w') ∧
         (∀ p, p ∈ old → faults w (CallRemoveService (app args) p) = None →
               services w' !! (app args, p) = None) ∧
         (∀ p e, p ∈ old → faults w (CallRemoveService (app args) p) = Some e →
               services w' !! (app args, p) = services w !! (app args, p) ∧
               (ignored_format, [app args; p; messageOf e]) ∈ logs w') ∧
         imageHistory w' = imageHistory w) ∧
  ((∀ p, p ∈ dom (Processes (newImgData args)) →
         faults w (deployCall args p) = None) →
   faults w (appendCall args) = None →
   ∃ w', pipeline_Execute deployPipeline args w = Completed w').
Proof.
  cbv zeta. split.
  - unfold removeOldServices_Forward. simpl. eexists. split; [done|].
    destruct (removeOld_loop args (oldProcesses args) w)
      as (Hf & Hh & Hc & Hl & Hs). simpl in *.
    apply issued_app in Hc. rewrite Hc.
    split_and!.
    + done.
    + intros p Hp. apply list_elem_of_fmap. exists p. split; [done|].
      by apply elem_of_oldProcesses.
    + intros p Hp Hok. rewrite Hs. rewrite decide_True; [done|].
      split_and!; [done| |done]. by apply elem_of_oldProcesses.
    + intros p e Hp He. split.
      * rewrite Hs. rewrite decide_False; [done|].
        intros (_ & _ & Hnone). congruence.
      * rewrite Hl, elem_of_app. right.
        apply list_elem_of_omap. exists p. split.
        -- by apply elem_of_oldProcesses.
        -- unfold ignoredLine. by rewrite He.
    + done.
  - intros Hok Ha.
    destruct (deployPipeline_cases args w)
      as [(pre & p & post & e & w1 & Hall & Hpre & Hp & Hrel & Heq)
         |[(e & w1 & _ & Ha' & _ & Heq)|(w1 & _ & _ & _ & Heq)]].
    + rewrite Hok in Hp; [done|].
      apply elem_of_toDeployProcesses. rewrite Hall, elem_of_app. right. by left.
    + congruence.
    + by eexists.
Qed.

(** ** The scenarios *)

Example scenarioC_order :
  toDeployProcesses scenarioC_args = ["web"; "worker"].
Proof. vm_compute. reflexivity. Qed.

Example scenarioB_before :
  running "myapp" scenarioB_cluster = dom (Processes (currentImgData scenarioB_args)).
Proof. vm_compute. reflexivity. Qed.

Example scenarioC_run :
  (λ o, match o with Failed e w => Some (e, services w, calls w, imageHistory w) | _ => None end)
    (pipeline_Execute deployPipeline scenarioC_args scenarioC_cluster) =
  Some (foreignError "swarm" "no node available",
        {[ ("myapp", "web") := image_v1 ]},
        [CallDeploy "myapp" "web" image_v2; CallDeploy "myapp" "worker" image_v2;
         CallDeploy "myapp" "web" image_v1],
        [("myapp", image_v1)]).
Proof. vm_compute. reflexivity. Qed.

(** C1 as stated fails in scenario B: the app runs exactly the processes
    of the current image, the new image drops the worker, the cluster
    rejects the removal of the worker's Service; the run completes and the
    worker still has its Service. *)
Lemma C1_counterexample_stale_service :
  running (app scenarioB_args) scenarioB_cluster
    = dom (Processes (currentImgData scenarioB_args)) ∧
  ∃ w', pipeline_Execute deployPipeline scenarioB_args scenarioB_cluster
          = Completed w' ∧
        services w' !! ("myapp", "worker") = Some image_v1 ∧
        ("worker" ∉ dom (Processes (newImgData scenarioB_args))) ∧
        running (app scenarioB_args) w'
          ≠ dom (Processes (newImgData scenarioB_args)).
Proof.
  split; [vm_compute; reflexivity|].
  eexists. split; [vm_compute; reflexivity|].
  split; [vm_compute; reflexivity|].
  assert ("worker" ∉ dom (Processes (newImgData scenarioB_args))) as Hnot.
  { apply not_elem_of_dom. vm_compute. reflexivity. }
  split; [done|].
  intros Heq. apply Hnot. rewrite <-Heq.
  apply elem_of_running. eexists. vm_compute. reflexivity.
Qed.

(** Two runs of the rollback need not leave what one run leaves. In
    scenario C the rollback of "web", which runs the new image, is rejected
    and leaves it there; when the cluster accepts the same request in a
    second run, that run puts the current image back. *)
Lemma C9_counterexample_accepted_the_second_time :
  faults scenarioC_stuck (rollbackCall scenarioC_args "web")
    = Some (foreignError "swarm" "no node available") ∧
  accepting (rollbackCall scenarioC_args "web") = None ∧
  services (rollbackAddedProcesses scenarioC_args ["web"] scenarioC_stuck)
    !! ("myapp", "web") = Some image_v2 ∧
  services (rollbackAddedProcesses scenarioC_args ["web"]
              (set_faults accepting
                 (rollbackAddedProcesses scenarioC_args ["web"] scenarioC_stuck)))
    !! ("myapp", "web") = Some image_v1 ∧
  services (rollbackAddedProcesses scenarioC_args ["web"]
              (set_faults accepting
                 (rollbackAddedProcesses scenarioC_args ["web"] scenarioC_stuck)))
    ≠ services (rollbackAddedProcesses scenarioC_args ["web"] scenarioC_stuck).
Proof.
  split_and!; [reflexivity..|].
  intros Heq. apply (f_equal (.!! ("myapp", "web"))) in Heq.
  vm_compute in Heq. discriminate Heq.
Qed.

(** Scenario C, where the cluster rejects the request to put "web" back
    and accepts the removal of "worker"; in the second run it rejects every
    request. *)
Lemma C9_witness_rejected_again :
  services (rollbackAddedProcesses scenarioC_args ["web"; "worker"]
              (set_faults (refusing (foreignError "swarm" "cluster is down"))
                 (rollbackAddedProcesses scenarioC_args ["web"; "worker"]
                    scenarioC_stuck)))
  = services (rollbackAddedProcesses scenarioC_args ["web"; "worker"]
                scenarioC_stuck).
Proof.
  apply (C9_rollback_twice_is_once scenarioC_args ["web"; "worker"]
           scenarioC_stuck (refusing (foreignError "swarm" "cluster is down"))).
  intros p _ _. exists (foreignError "swarm" "cluster is down"). reflexivity.
Defined.

Lemma C1_witness_scenarioB_healthy :
  pipeline_Execute deployPipeline scenarioB_args scenarioB_healthy
    = Completed (afterPipeline scenarioB_args scenarioB_healthy) ∧
  running (app scenarioB_args) (afterPipeline scenarioB_args scenarioB_healthy)
    = dom (Processes (newImgData scenarioB_args)).
Proof.
  assert (pipeline_Execute deployPipeline scenarioB_args scenarioB_healthy
            = Completed (afterPipeline scenarioB_args scenarioB_healthy)) as Hrun.
  { vm_compute. reflexivity. }
  split; [exact Hrun|].
  destruct (C1_completed_run_services scenarioB_args scenarioB_healthy _ Hrun)
    as (_ & _ & Hexact).
  - apply (bool_decide_unpack _). vm_compute. reflexivity.
  - apply Hexact. intros p _. reflexivity.
Defined.

Lemma C2_witness_scenarioC :
  ∃ w', updateServices_Forward {| Params := scenarioC_args; Previous := None |}
          scenarioC_cluster
          = (inr (foreignError "swarm" "no node available"), w') ∧
        issued scenarioC_cluster w' =
          [CallDeploy "myapp" "web" image_v2;
           CallDeploy "myapp" "worker" image_v2;
           CallDeploy "myapp" "web" image_v1] ∧
        services w' !! ("myapp", "web") = Some image_v1.
Proof.
  destruct (C2_update_services_rolls_back scenarioC_args None scenarioC_cluster)
    as (_ & _ & _ & _ & Hfail).
  destruct (Hfail ["web"] "worker" [] (foreignError "swarm" "no node available"))
    as (w' & Hfw & Hi & _ & Hs).
  - vm_compute. reflexivity.
  - intros q Hq. apply list_elem_of_singleton in Hq as ->. vm_compute. reflexivity.
  - vm_compute. reflexivity.
  - exists w'. split; [exact Hfw|]. split; [exact Hi|].
    apply (Hs "web").
    + apply list_elem_of_singleton. reflexivity.
    + vm_compute. reflexivity.
Defined.

Lemma C3_witness_scenarioC :
  imageHistory (afterPipeline scenarioC_args scenarioC_cluster)
    = imageHistory scenarioC_cluster ∧
  appendCall scenarioC_args
    ∉ issued scenarioC_cluster (afterPipeline scenarioC_args scenarioC_cluster).
Proof.
  destruct (C3_history_written_after_full_deployment scenarioC_args scenarioC_cluster)
    as [_ H].
  destruct (H (afterPipeline scenarioC_args scenarioC_cluster)) as (Hfail & _ & _).
  - vm_compute. reflexivity.
  - destruct Hfail as (_ & Hh & Hn); [|by split].
    exists "worker". split.
    + apply elem_of_dom. eexists. vm_compute. reflexivity.
    + eexists. vm_compute. reflexivity.
Defined.

Lemma C4_witness_scenarioB :
  ∃ w', pipeline_Execute deployPipeline scenarioB_args scenarioB_cluster
          = Completed w'.
Proof.
  destruct (C4_remove_old_services_swallows_failures scenarioB_args None
              scenarioB_cluster) as [_ H].
  apply H.
  - intros p Hp. simpl in Hp. rewrite dom_singleton_L in Hp.
    apply elem_of_singleton in Hp as ->. vm_compute. reflexivity.
  - vm_compute. reflexivity.
Defined.

(** ** Further properties of the actions *)

Lemma rollbackProcess_logs args p w :
  logs (rollbackProcess args p w) =
    (logs w ++ option_list (rollbackLine args w p))%list.
Proof.
  unfold rollbackProcess, rollbackLine, rollbackCall, deploy, removeService.
  repeat (case_decide || case_match || simplify_eq /=);
    by rewrite ?app_nil_r.
Qed.

Lemma rollback_logs args l w :
  logs (rollbackAddedProcesses args l w) =
    (logs w ++ omap (rollbackLine args w) l)%list.
Proof.
  revert w. induction l as [|p l IH]; intros w; simpl.
  - by rewrite app_nil_r.
  - rewrite IH, rollbackProcess_logs, <-app_assoc. f_equal.
    assert (omap (rollbackLine args (rollbackProcess args p w)) l
              = omap (rollbackLine args w) l) as ->.
    { apply list_omap_ext, Forall2_same_length_lookup. split; [done|].
      intros i q q' Hq Hq'. simplify_eq. unfold rollbackLine.
      by rewrite rollbackProcess_faults. }
    by destruct (rollbackLine args w p).
Qed.

(** X8. [rollbackAddedProcesses] is exhaustive and best effort: it sends
    one request per listed process, in the order of the list, whatever the
    answers; it logs one line per rejected request; it never writes to the
    image history; and a Service it does not ask for is left as it was. *)
Theorem rollback_attempts_every_process (args : pipelineArgs)
    (processes : list string) (w : Cluster) :
  let w' := rollbackAddedProcesses args processes w in
  issued w w' = rollbackCall args <$> processes ∧
  logs w' = (logs w ++ omap (rollbackLine args w) processes)%list ∧
  length (logs w') =
    (length (logs w) +
     length (filter (λ p, is_Some (faults w (rollbackCall args p))) processes))%nat ∧
  imageHistory w' = imageHistory w ∧
  ∀ a q, a ≠ app args ∨ q ∉ processes →
         services w' !! (a, q) = services w !! (a, q).
Proof.
  cbv zeta. split_and!.
  - apply issued_app, rollback_calls.
  - apply rollback_logs.
  - rewrite rollback_logs, length_app. f_equal.
    induction processes as [|p l IH]; [done|].
    rewrite filter_cons. csimpl. unfold rollbackLine at 1.
    destruct (faults w (rollbackCall args p)) as [e|].
    + rewrite decide_True by by eexists. simpl. by rewrite IH.
    + rewrite decide_False by by intros []%is_Some_None. done.
  - apply rollback_imageHistory.
  - intros a q Hout. rewrite rollback_lookup, decide_False; [done|].
    intros (-> & Hin & _). by destruct Hout.
Qed.

(** The Services after a failed run, whichever step failed: those of the
    processes deployed before the failure are rolled back where the cluster
    accepts it, the others are as before the run. *)
Lemma failed_run_lookup args w e w' :
  pipeline_Execute deployPipeline args w = Failed e w' →
  ∃ deployed : list string,
    (∀ q, q ∈ deployed → q ∈ dom (Processes (newImgData args))) ∧
    imageHistory w' = imageHistory w ∧
    (∃ cs, issued w w' = (cs ++ (rollbackCall args <$> deployed))%list ∧
           ∀ c, c ∈ cs → c = appendCall args ∨ ∃ q, c = deployCall args q) ∧
    ∀ a q, services w' !! (a, q) =
             if decide (a = app args ∧ q ∈ deployed)
             then if decide (faults w (rollbackCall args q) = None)
                  then rollbackTarget args q else Some (newImage args)
             else services w !! (a, q).
Proof.
  intros Hrun.
  destruct (deployPipeline_cases args w)
    as [(pre & p & post & e' & w1 & Hall & _ & _ & Hrel & Heq)
       |[(e' & w1 & _ & _ & Hrel & Heq)|(w1 & _ & _ & _ & Heq)]];
    rewrite Heq in Hrun; try discriminate; injection Hrun as <- <-;
    destruct Hrel as (Hf & Hh & _ & Hc & Hs).
  - exists pre. split_and!.
    + intros q Hq. apply elem_of_toDeployProcesses.
      rewrite Hall, elem_of_app. by left.
    + by rewrite rollback_imageHistory.
    + eexists. split.
      * apply issued_app. rewrite rollback_calls, Hc. by rewrite <-app_assoc.
      * intros c [(q & -> & _)%list_elem_of_fmap| ->%list_elem_of_singleton]%elem_of_app;
          right; by eexists.
    + intros a q. rewrite rollback_lookup, Hf, Hs.
      destruct (decide (a = app args ∧ q ∈ pre)) as [[-> Hin]|Hn].
      * destruct (decide (faults w (rollbackCall args q) = None)) as [Hq|Hq].
        -- by rewrite decide_True.
        -- rewrite decide_False; [done|]. by intros (_ & _ & ?).
      * rewrite decide_False; [done|]. intros (-> & ? & _). by apply Hn.
  - exists (toDeployProcesses args). split_and!.
    + intros q Hq. by apply elem_of_toDeployProcesses.
    + by rewrite rollback_imageHistory.
    + exists ((deployCall args <$> toDeployProcesses args) ++ [appendCall args])%list.
      split.
      * apply issued_app. rewrite rollback_calls. simpl.
        by rewrite Hc, <-!app_assoc.
      * intros c [(q & -> & _)%list_elem_of_fmap| ->%list_elem_of_singleton]%elem_of_app;
          [right; by eexists|by left].
    + intros a q. rewrite rollback_lookup. simpl. rewrite Hf, Hs.
      destruct (decide (a = app args ∧ q ∈ toDeployProcesses args)) as [[-> Hin]|Hn].
      * destruct (decide (faults w (rollbackCall args q) = None)) as [Hq|Hq].
        -- by rewrite decide_True.
        -- rewrite decide_False; [done|]. by intros (_ & _ & ?).
      * rewrite decide_False; [done|]. intros (-> & ? & _). by apply Hn.
Qed.

(** X9. A failed run of the deployment pipeline that started with the
    processes of the new image as the current image has them (its own
    processes at the current image, the others without a Service) and whose
    rollback requests the cluster accepts leaves every Service and the
    image history exactly as they were before the run. *)
Theorem failed_run_restores_services (args : pipelineArgs) (w w' : Cluster)
    (e : error) :
  pipeline_Execute deployPipeline args w = Failed e w' →
  (∀ q, q ∈ dom (Processes (newImgData args)) →
        services w !! (app args, q) = rollbackTarget args q) →
  (∀ q, q ∈ dom (Processes (newImgData args)) →
        faults w (rollbackCall args q) = None) →
  services w' = services w ∧ imageHistory w' = imageHistory w.
Proof.
  intros Hrun Hinit Hacc.
  destruct (failed_run_lookup _ _ _ _ Hrun) as (deployed & Hsub & Hh & _ & Hs).
  split; [|done]. apply map_eq. intros [a q]. rewrite Hs.
  case_decide as Hc; [|done]. destruct Hc as [-> Hin].
  rewrite decide_True by by apply Hacc, Hsub.
  symmetry. by apply Hinit, Hsub.
Qed.

Lemma failed_run_restores_witness :
  services (afterPipeline scenarioC_args scenarioC_cluster)
    = services scenarioC_cluster.
Proof.
  eapply (failed_run_restores_services scenarioC_args scenarioC_cluster
            (afterPipeline scenarioC_args scenarioC_cluster)
            (foreignError "swarm" "no node available")).
  - vm_compute. reflexivity.
  - intros q Hq. simpl in Hq. rewrite dom_insert_L, dom_singleton_L in Hq.
    apply elem_of_union in Hq as [->%elem_of_singleton| ->%elem_of_singleton];
      vm_compute; reflexivity.
  - intros q Hq. simpl in Hq. rewrite dom_insert_L, dom_singleton_L in Hq.
    apply elem_of_union in Hq as [->%elem_of_singleton| ->%elem_of_singleton];
      vm_compute; reflexivity.
Defined.

(** X10. A failed run never takes away the Service of a process the current
    image has: every removal it requests is for a process that the new
    image has and the current image has not, and the Service of a process
    outside the new image is as it was before the run. *)
Theorem failed_run_keeps_current_processes (args : pipelineArgs)
    (w w' : Cluster) (e : error) :
  pipeline_Execute deployPipeline args w = Failed e w' →
  (∀ a q, CallRemoveService a q ∈ issued w w' →
          a = app args ∧
          q ∈ dom (Processes (newImgData args)) ∧
          q ∉ dom (Processes (currentImgData args))) ∧
  (∀ q, q ∉ dom (Processes (newImgData args)) →
        services w' !! (app args, q) = services w !! (app args, q)) ∧
  (∀ q, q ∈ dom (Processes (currentImgData args)) →
        is_Some (services w !! (app args, q)) →
        is_Some (services w' !! (app args, q))).
Proof.
  intros Hrun.
  destruct (failed_run_lookup _ _ _ _ Hrun)
    as (deployed & Hsub & _ & (cs & Hi & Hcs) & Hs).
  split_and!.
  - intros a q. rewrite Hi, elem_of_app. intros [Hin|Hin].
    + by destruct (Hcs _ Hin) as [?|[? ?]].
    + apply list_elem_of_fmap in Hin as (q' & Heq & Hin).
      unfold rollbackCall in Heq. case_decide as Hc; [done|].
      injection Heq as -> ->. split_and!; [done|by apply Hsub|].
      by intros ?%elem_of_dom.
  - intros q Hq. rewrite Hs, decide_False; [done|].
    intros [_ Hin]. by apply Hq, Hsub.
  - intros q Hcur Hsome. rewrite Hs.
    case_decide as Hc; [|done]. case_decide; [|by eexists].
    unfold rollbackTarget. rewrite decide_True by by apply elem_of_dom. by eexists.
Qed.

Lemma failed_run_keeps_current_witness :
  is_Some (services (afterPipeline scenarioC_args scenarioC_cluster)
             !! ("myapp", "web")).
Proof.
  destruct (failed_run_keeps_current_processes scenarioC_args scenarioC_cluster
              (afterPipeline scenarioC_args scenarioC_cluster)
              (foreignError "swarm" "no node available")) as (_ & _ & Hkeep).
  - vm_compute. reflexivity.
  - apply (Hkeep "web").
    + apply elem_of_dom. eexists. vm_compute. reflexivity.
    + eexists. vm_compute. reflexivity.
Defined.

(** X11. Whatever its outcome, a run of the deployment pipeline only sends
    requests about its own app, and it leaves alone the Services of every
    other app and the Services of its own app for processes that neither
    image has. *)
Theorem pipeline_touches_only_its_app (args : pipelineArgs) (w w' : Cluster) :
  finalWorld (pipeline_Execute deployPipeline args w) = Some w' →
  (∀ c, c ∈ issued w w' → callApp c = app args) ∧
  (∀ a q, a ≠ app args ∨
          ((q ∉ dom (Processes (newImgData args))) ∧
           (q ∉ dom (Processes (currentImgData args)))) →
          services w' !! (a, q) = services w !! (a, q)).
Proof.
  intros Hfin.
  destruct (pipeline_Execute deployPipeline args w) as [w0|e w0|] eqn:Hrun;
    simpl in Hfin; [| |done]; injection Hfin as ->.
  - (* completed *)
    destruct (deployPipeline_cases args w)
      as [(pre & p & post & e & w1 & _ & _ & _ & _ & Heq)
         |[(e & w1 & _ & _ & _ & Heq)|(w1 & _ & _ & Hrel & Heq)]];
      rewrite Heq in Hrun; try discriminate. injection Hrun as <-.
    destruct Hrel as (Hf & _ & _ & Hc & Hs).
    match goal with |- context [foldl ?f ?w0 ?l] =>
      destruct (removeOld_loop args l w0) as (_ & _ & Hc' & _ & Hs') end.
    simpl in Hc', Hs'. split.
    + intros c. erewrite issued_app; [|by rewrite Hc', Hc, <-!app_assoc].
      rewrite !elem_of_app, list_elem_of_singleton.
      intros [Hin|[->|Hin]]; [|done|];
        by apply list_elem_of_fmap in Hin as (q & -> & _).
    + intros a q Hout. rewrite Hs', Hs.
      rewrite decide_False.
      2:{ intros (-> & Hin%elem_of_oldProcesses & _).
          apply elem_of_difference in Hin as [? _].
          by destruct Hout as [?|[_ ?]]. }
      rewrite decide_False; [done|].
      intros [-> Hin%elem_of_toDeployProcesses]. by destruct Hout as [?|[? _]].
  - (* failed *)
    destruct (failed_run_lookup _ _ _ _ Hrun)
      as (deployed & Hsub & _ & (cs & Hi & Hcs) & Hs).
    split.
    + intros c. rewrite Hi, elem_of_app. intros [Hin|Hin].
      * by destruct (Hcs _ Hin) as [->|[q ->]].
      * apply list_elem_of_fmap in Hin as (q & -> & _).
        unfold rollbackCall. by case_decide.
    + intros a q Hout. rewrite Hs, decide_False; [done|].
      intros [-> Hin%Hsub]. by destruct Hout as [?|[? _]].
Qed.

Lemma pipeline_touches_only_its_app_witness :
  services (afterPipeline scenarioB_args scenarioB_cluster) !! ("other", "web")
    = services scenarioB_cluster !! ("other", "web").
Proof.
  destruct (pipeline_touches_only_its_app scenarioB_args scenarioB_cluster
              (afterPipeline scenarioB_args scenarioB_cluster)) as [_ Hframe].
  - vm_compute. reflexivity.
  - apply Hframe. left. vm_compute. discriminate.
Defined.

(** X12. A run of the deployment pipeline never panics. It completes
    exactly when the cluster accepts the deployment of every process of the
    new image and the store accepts the history record, and then the
    history has gained the new image as its last entry; otherwise it fails
    with the error of a rejected deployment as it is, or with the error of
    the store under a wrapper, and the history is as before the run. *)
Theorem pipeline_outcome (args : pipelineArgs) (w : Cluster) :
  let accepted :=
    (∀ p, p ∈ dom (Processes (newImgData args)) →
          faults w (deployCall args p) = None) ∧
    faults w (appendCall args) = None in
  match pipeline_Execute deployPipeline args w with
  | Completed w' =>
      accepted ∧
      imageHistory w' = (imageHistory w ++ [(app args, newImage args)])%list
  | Failed e w' =>
      ¬ accepted ∧
      imageHistory w' = imageHistory w ∧
      ((∃ p, p ∈ dom (Processes (newImgData args)) ∧
             faults w (deployCall args p) = Some e) ∨
       (∃ e0, faults w (appendCall args) = Some e0 ∧ e = withStack e0 ∧
              errors_Cause e = errors_Cause e0))
  | Panicked => False
  end.
Proof.
  cbv zeta.
  destruct (deployPipeline_cases args w)
    as [(pre & p & post & e & w1 & Hall & _ & Hp & Hrel & Heq)
       |[(e & w1 & Hok & Ha & Hrel & Heq)|(w1 & Hok & Ha & Hrel & Heq)]];
    rewrite Heq; destruct Hrel as (_ & Hh & _ & _ & _).
  - assert (p ∈ dom (Processes (newImgData args))) as Hin.
    { apply elem_of_toDeployProcesses. rewrite Hall, elem_of_app. right. by left. }
    split_and!.
    + intros [Hacc _]. rewrite Hacc in Hp by done. discriminate.
    + by rewrite rollback_imageHistory.
    + left. by exists p.
  - split_and!.
    + intros [_ Hacc]. congruence.
    + by rewrite rollback_imageHistory.
    + right. by exists e.
  - match goal with |- context [foldl ?f ?w0 ?l] =>
      destruct (removeOld_loop args l w0) as (_ & Hh' & _) end.
    simpl in Hh'. split_and!.
    + intros q Hq. by apply Hok, elem_of_toDeployProcesses.
    + done.
    + by rewrite Hh', Hh.
Qed.

(** X13. When the new image has every process of the current image,
    [remove-old-services.Forward] sends no request and leaves the cluster
    as it is, and a completed run of the pipeline has sent the deployments
    in order followed by the history record, and nothing else. *)
Theorem no_removal_when_processes_kept (args : pipelineArgs) (previous : Result)
    (w : Cluster) :
  dom (Processes (currentImgData args)) ⊆ dom (Processes (newImgData args)) →
  removeOldServices_Forward {| Params := args; Previous := previous |} w
    = (inl None, w) ∧
  ∀ w', pipeline_Execute deployPipeline args w = Completed w' →
        issued w w' =
          ((deployCall args <$> toDeployProcesses args) ++ [appendCall args])%list ∧
        logs w' = logs w.
Proof.
  intros Hsub.
  assert (oldProcesses args = []) as Hold.
  { unfold oldProcesses, set_FromMap.
    assert (dom (Processes (currentImgData args)) ∖
            dom (Processes (newImgData args)) = ∅) as ->; [|apply elements_empty].
    apply set_eq. intros x. rewrite elem_of_difference, elem_of_empty.
    split; [|done]. intros [Hc Hn]. by apply Hn, Hsub. }
  split.
  - unfold removeOldServices_Forward. simpl. by rewrite Hold.
  - intros w' Hrun.
    destruct (deployPipeline_cases args w)
      as [(pre & p & post & e & w1 & _ & _ & _ & _ & Heq)
         |[(e & w1 & _ & _ & _ & Heq)|(w1 & _ & _ & Hrel & Heq)]];
      rewrite Heq in Hrun; try discriminate. injection Hrun as <-.
    destruct Hrel as (_ & _ & Hl & Hc & _).
    rewrite Hold. simpl. split; [|done].
    apply issued_app. simpl. by rewrite Hc, <-app_assoc.
Qed.

Lemma no_removal_witness :
  issued scenarioA_cluster (afterPipeline scenarioC_args scenarioA_cluster)
    = [CallDeploy "myapp" "web" image_v2; CallDeploy "myapp" "worker" image_v2;
       CallAppendAppImageName "myapp" image_v2].
Proof.
  destruct (no_removal_when_processes_kept scenarioC_args None scenarioA_cluster)
    as [_ Hrun].
  - apply (bool_decide_unpack _). vm_compute. reflexivity.
  - destruct (Hrun (afterPipeline scenarioC_args scenarioA_cluster)) as [Hi _].
    + vm_compute. reflexivity.
    + rewrite Hi. vm_compute. reflexivity.
Defined.

(** X14. When the cluster accepts every deployment,
    [update-services.Forward] returns the sorted process names of the new
    image, as many as the image has processes; afterwards each of them has
    a Service bound to the new image, every other Service is as before (so
    none is removed), and nothing was logged or recorded in the history. *)
Theorem update_services_success_state (args : pipelineArgs) (previous : Result)
    (w : Cluster) :
  (∀ p, p ∈ dom (Processes (newImgData args)) →
        faults w (deployCall args p) = None) →
  ∃ w', updateServices_Forward {| Params := args; Previous := previous |} w
          = (inl (Some (toDeployProcesses args)), w') ∧
        length (toDeployProcesses args) = size (Processes (newImgData args)) ∧
        (∀ a q, services w' !! (a, q) =
                  if decide (a = app args ∧ q ∈ dom (Processes (newImgData args)))
                  then Some (newImage args) else services w !! (a, q)) ∧
        dom (services w) ⊆ dom (services w') ∧
        logs w' = logs w ∧
        imageHistory w' = imageHistory w.
Proof.
  intros Hok.
  destruct (deployLoop_ok args (toDeployProcesses args) [] w)
    as (w1 & Hloop & _ & Hh & Hl & _ & Hs).
  { intros q Hq. by apply Hok, elem_of_toDeployProcesses. }
  unfold updateServices_Forward. simpl. rewrite Hloop. simpl.
  exists w1.
  assert (∀ a q, services w1 !! (a, q) =
            if decide (a = app args ∧ q ∈ dom (Processes (newImgData args)))
            then Some (newImage args) else services w !! (a, q)) as Hs'.
  { intros a q. rewrite Hs. apply decide_ext.
    by rewrite elem_of_toDeployProcesses. }
  split_and!; try done.
  - rewrite toDeployProcesses_perm. unfold rangeKeys.
    by rewrite length_fmap, length_map_to_list.
  - intros [a q] [v Hv]%elem_of_dom. apply elem_of_dom. rewrite Hs'.
    case_decide; [by eexists|]. by rewrite Hv.
Qed.

Lemma update_services_success_witness :
  ∃ w', updateServices_Forward {| Params := scenarioC_args; Previous := None |}
          scenarioA_cluster = (inl (Some ["web"; "worker"]), w').
Proof.
  destruct (update_services_success_state scenarioC_args None scenarioA_cluster)
    as (w' & Hfw & _).
  - intros p _. reflexivity.
  - exists w'. rewrite Hfw. vm_compute. reflexivity.
Defined.

End SwarmProofs.

(** * Properties of the node-container reconciliation *)

Module KubernetesProofs.
Import Kubernetes.

Section proofs.
Context `{!Externals}.

Lemma sent_app (c c' : clusterClient) rs :
  requests c' = (requests c ++ rs)%list → sent c c' = rs.
Proof. intros Hr. unfold sent. by rewrite Hr, drop_app_length. Qed.

Lemma fetchOld_existing client config pool ds :
  existing client config pool ds →
  fetchOld (daemonSetName (nc_Name config) pool) client =
    (inl (Some ds), record_request (getRequest client config pool) client).
Proof.
  intros [Hf Hds]. unfold fetchOld, DaemonSets_Get. simpl.
  unfold getRequest in Hf. by rewrite Hf, Hds.
Qed.

Lemma fetchOld_absent client config pool :
  absent client config pool →
  fetchOld (daemonSetName (nc_Name config) pool) client =
    (inl None, record_request (getRequest client config pool) client).
Proof.
  intros [Hf Hds]. unfold fetchOld, DaemonSets_Get. simpl.
  unfold getRequest in Hf. by rewrite Hf, Hds.
Qed.

(** ** The cluster API records every request *)

Lemma Create_requests ds c :
  requests (DaemonSets_Create ds c).2 =
    (requests c ++ [CreateDaemonSet (client_Namespace c) ds])%list.
Proof. unfold DaemonSets_Create. simpl. by repeat case_match. Qed.

Lemma Update_requests ds c :
  requests (DaemonSets_Update ds c).2 =
    (requests c ++ [UpdateDaemonSet (client_Namespace c) ds])%list.
Proof. unfold DaemonSets_Update. simpl. by repeat case_match. Qed.

Lemma fullReconcile_config client config pool dsName oldDs annotations affinity :
  (fullReconcile client config pool dsName oldDs annotations affinity).1.1
    = injected config.
Proof.
  unfold fullReconcile, injected.
  by destruct oldDs; [destruct (DaemonSets_Update _ _)|destruct (DaemonSets_Create _ _)].
Qed.

Lemma fullReconcile_client client config pool dsName oldDs annotations affinity :
  (fullReconcile client config pool dsName oldDs annotations affinity).1.2 =
    let ds := desiredDaemonSet (client_Namespace client) dsName pool
                (injected config)
                {| opts_Name := nc_Name config;
                   CustomLabels := cfg_Labels (Config config);
                   Pool := pool;
                   Provisioner := provisionerName;
                   Prefix := tsuruLabelPrefix |} annotations affinity in
    match oldDs with
    | Some _ => (DaemonSets_Update ds client).2
    | None => (DaemonSets_Create ds client).2
    end.
Proof.
  unfold fullReconcile, injected.
  by destruct oldDs; [destruct (DaemonSets_Update _ _)|destruct (DaemonSets_Create _ _)].
Qed.

(** The placement computed for a filter, case by case. *)
Lemma placement_empty filter :
  len (Values (nodeRequirement filter)) = 0 →
  placement filter = inl (∅, None).
Proof. intros Hz. unfold placement. by rewrite decide_False by lia. Qed.

Lemma placement_nonempty filter :
  len (Values (nodeRequirement filter)) ≠ 0 →
  placement filter =
    match json_Marshal (requiredNodeAffinity (nodeRequirement filter)) with
    | inl affinityData =>
        inl ({[ alphaAffinityAnnotation := affinityData ]},
             Some (requiredNodeAffinity (nodeRequirement filter)))
    | inr err => inr err
    end.
Proof. intros Hnz. unfold placement. by rewrite decide_True. Qed.

(** C7. The requirement computed for a pool filter has key
    [LabelNodePool]; its operator is "NotIn" and its values are [Exclude]
    when [Exclude] is non-empty, and otherwise its operator is "In" and its
    values are [Include]. When the chosen values are empty, no affinity is
    built and the annotations are empty. When they are non-empty, the
    affinity is built: it is the one required node-selector term made of
    this requirement and nothing else; if it serializes, the annotations
    hold the serialization under the affinity key, and nothing else, and if
    it does not, the error of the serialization is the result. So an
    affinity, and an annotation, come out exactly when the chosen values are
    non-empty. [deployNodeContainerForCluster] uses what is computed here:
    where no daemon set exists, the one it creates carries exactly this
    affinity and these annotations, and when the serialization fails it
    returns that error after the read, without a write. *)
Theorem C7_node_selection_requirement (filter : PoolFilter) :
  let nodeReq := nodeRequirement filter in
  let built :=
    {| aff_NodeAffinity := Some
         {| RequiredDuringSchedulingIgnoredDuringExecution := Some
              {| NodeSelectorTerms := Some
                   [ {| MatchExpressions := Some [nodeReq] |} ] |};
            PreferredDuringSchedulingIgnoredDuringExecution := None |};
       aff_PodAffinity := None;
       aff_PodAntiAffinity := None |} in
  Key nodeReq = LabelNodePool ∧
  (0 < len (Exclude filter) →
     Operator nodeReq = NodeSelectorOpNotIn ∧ Values nodeReq = Exclude filter) ∧
  (len (Exclude filter) = 0 →
     Operator nodeReq = NodeSelectorOpIn ∧ Values nodeReq = Include filter) ∧
  (len (Values nodeReq) = 0 → placement filter = inl (∅, None)) ∧
  (len (Values nodeReq) ≠ 0 →
     placement filter =
       match json_Marshal built with
       | inl data => inl ({[ alphaAffinityAnnotation := data ]}, Some built)
       | inr err => inr err
       end) ∧
  (∀ annotations affinity,
     placement filter = inl (annotations, affinity) →
     (is_Some affinity ↔ len (Values nodeReq) ≠ 0) ∧
     (is_Some (annotations !! alphaAffinityAnnotation) ↔ len (Values nodeReq) ≠ 0) ∧
     (len (Values nodeReq) ≠ 0 →
        affinity = Some built ∧
        ∃ data, json_Marshal built = inl data ∧
                annotations = {[ alphaAffinityAnnotation := data ]})) ∧
  (∀ client config pool placementOnly,
     absent client config pool →
     match placement filter with
     | inl (annotations, affinity) =>
         ∃ ds, sent client (deployNodeContainerForCluster client config pool filter
                              placementOnly).1.2
                 = [getRequest client config pool;
                    CreateDaemonSet (client_Namespace client) ds] ∧
               Annotations (tpl_ObjectMeta (Template (Spec ds))) = Some annotations ∧
               spec_Affinity (tpl_Spec (Template (Spec ds))) = affinity
     | inr err =>
         deployNodeContainerForCluster client config pool filter placementOnly
           = (config, record_request (getRequest client config pool) client,
              Some (withStack err))
     end).
Proof.
  cbv zeta. fold (requiredNodeAffinity (nodeRequirement filter)). split_and!.
  - unfold nodeRequirement. by case_decide.
  - intros Hpos. unfold nodeRequirement. by rewrite decide_True.
  - intros Hz. unfold nodeRequirement. by rewrite decide_False by lia.
  - apply placement_empty.
  - apply placement_nonempty.
  - intros annotations affinity Hpl.
    destruct (decide (len (Values (nodeRequirement filter)) = 0)) as [Hz|Hnz].
    + rewrite placement_empty in Hpl by done. injection Hpl as <- <-.
      split_and!.
      * split; [by intros []%is_Some_None|done].
      * rewrite lookup_empty. split; [by intros []%is_Some_None|done].
      * done.
    + rewrite placement_nonempty in Hpl by done.
      destruct (json_Marshal _) as [data|err] eqn:Hm; [|done].
      injection Hpl as <- <-. split_and!.
      * split; [done|by eexists].
      * rewrite lookup_singleton_eq. split; [done|by eexists].
      * intros _. split; [done|]. by exists data.
  - intros client config pool placementOnly Habs.
    destruct (placement filter) as [[annotations affinity]|err] eqn:Hpl.
    + unfold deployNodeContainerForCluster.
      rewrite (fetchOld_absent _ _ _ Habs), Hpl. simpl.
      rewrite fullReconcile_client. simpl.
      eexists. split.
      * apply sent_app. rewrite Create_requests. simpl. by rewrite <-app_assoc.
      * done.
    + unfold deployNodeContainerForCluster.
      by rewrite (fetchOld_absent _ _ _ Habs), Hpl.
Qed.

(** The placement of an existing daemon set is the computed one. *)
Lemma forCluster_placement_only_match (client : clusterClient)
    (config : NodeContainerConfig) (pool : string) (filter : PoolFilter)
    (oldDs : DaemonSet) (annotations : gmap string string)
    (affinity : option Affinity) :
  existing client config pool oldDs →
  placement filter = inl (annotations, affinity) →
  Annotations (tpl_ObjectMeta (Template (Spec oldDs))) = Some annotations →
  spec_Affinity (tpl_Spec (Template (Spec oldDs))) = affinity →
  deployNodeContainerForCluster client config pool filter true
    = (config, record_request (getRequest client config pool) client, None).
Proof.
  intros Hex Hpl Hann Haff.
  unfold deployNodeContainerForCluster.
  rewrite (fetchOld_existing _ _ _ _ Hex), Hpl. simpl.
  unfold reflect_DeepEqual.
  by rewrite !bool_decide_eq_true_2 by done.
Qed.


Lemma set_placement_same annotations affinity ds :
  sameButPlacement (set_Affinity affinity (set_Annotations annotations ds)) ds.
Proof. by unfold sameButPlacement. Qed.

Lemma WithStack_not_ErrNoCluster err :
  errors_WithStack err ≠ Some ErrNoCluster.
Proof. by destruct err. Qed.

(** With one cluster registered, [DeployNodeContainer] is the
    reconciliation of that cluster. *)
Lemma DeployNodeContainer_single client config pool filter placementOnly
    config' client' err :
  deployNodeContainerForCluster client config pool filter placementOnly
    = (config', client', errors_WithStack err) →
  DeployNodeContainer [client] config pool filter placementOnly
    = (config', [client'], errors_WithStack err).
Proof.
  intros Hrun. unfold DeployNodeContainer, forEachCluster. simpl.
  unfold reconcileCluster. rewrite Hrun.
  pose proof (WithStack_not_ErrNoCluster err) as Hne.
  destruct (errors_WithStack err); simpl; [by rewrite decide_False|done].
Qed.

(** C6. When the daemon set exists, the reconciliation is placement-only
    and the computed annotations or the computed affinity differ from those
    of the existing pod template, exactly one update is sent; the object it
    carries has the computed annotations and affinity in its pod template
    and agrees with the existing object on every other field; it is what
    the cluster stores when it accepts the update; the configuration is as
    before and no other stored object changes. *)
Theorem C6_placement_only_update_touches_placement (client : clusterClient)
    (config : NodeContainerConfig) (pool : string) (filter : PoolFilter)
    (oldDs : DaemonSet) (annotations : gmap string string)
    (affinity : option Affinity) :
  existing client config pool oldDs →
  placement filter = inl (annotations, affinity) →
  Annotations (tpl_ObjectMeta (Template (Spec oldDs))) ≠ Some annotations ∨
  spec_Affinity (tpl_Spec (Template (Spec oldDs))) ≠ affinity →
  ∃ newDs client' err,
    deployNodeContainerForCluster client config pool filter true
      = (config, client', err) ∧
    DeployNodeContainer [client] config pool filter true
      = (config, [client'], err) ∧
    sent client client' =
      [getRequest client config pool;
       UpdateDaemonSet (client_Namespace client) newDs] ∧
    Annotations (tpl_ObjectMeta (Template (Spec newDs))) = Some annotations ∧
    spec_Affinity (tpl_Spec (Template (Spec newDs))) = affinity ∧
    sameButPlacement newDs oldDs ∧
    (err = None →
       daemonSets client' !! Name (ds_ObjectMeta oldDs) = Some newDs) ∧
    (∀ name, name ≠ Name (ds_ObjectMeta oldDs) →
             daemonSets client' !! name = daemonSets client !! name).
Proof.
  intros Hex Hpl Hdiff.
  assert (deployNodeContainerForCluster client config pool filter true =
            let newDs := set_Affinity affinity
                           (set_Annotations (Some annotations) oldDs) in
            let r := DaemonSets_Update newDs
                       (record_request (getRequest client config pool) client) in
            (config, r.2, errors_WithStack r.1)) as Hrun.
  { unfold deployNodeContainerForCluster.
    rewrite (fetchOld_existing _ _ _ _ Hex), Hpl. simpl.
    unfold reflect_DeepEqual.
    assert (bool_decide (Annotations (tpl_ObjectMeta (Template (Spec oldDs)))
                           = Some annotations)
            && bool_decide (spec_Affinity (tpl_Spec (Template (Spec oldDs)))
                              = affinity) = false) as ->.
    { apply andb_false_iff.
      destruct Hdiff; [left|right]; by apply bool_decide_eq_false_2. }
    by destruct (DaemonSets_Update _ _). }
  cbv zeta in Hrun.
  set (newDs := set_Affinity affinity (set_Annotations (Some annotations) oldDs)) in *.
  set (c1 := record_request (getRequest client config pool) client) in *.
  pose proof (Update_requests newDs c1) as Hreq.
  assert (∀ name, name ≠ Name (ds_ObjectMeta oldDs) →
            daemonSets (DaemonSets_Update newDs c1).2 !! name
              = daemonSets client !! name) as Hother.
  { intros name Hne. unfold DaemonSets_Update. simpl.
    repeat case_match; simpl; try done. by rewrite lookup_insert_ne. }
  assert ((DaemonSets_Update newDs c1).1 = None →
            daemonSets (DaemonSets_Update newDs c1).2 !! Name (ds_ObjectMeta oldDs)
              = Some newDs) as Hstored.
  { unfold DaemonSets_Update. simpl.
    repeat case_match; simpl; try done. intros _. by rewrite lookup_insert_eq. }
  destruct (DaemonSets_Update newDs c1) as [err client']. simpl in *.
  exists newDs, client', (errors_WithStack err).
  split_and!; [done|by apply DeployNodeContainer_single| |done|done
              |apply set_placement_same| |done].
  - apply sent_app. by rewrite Hreq, <-app_assoc.
  - intros Herr. apply Hstored. by destruct err.
Qed.

(** ** What a reconciliation does to the configuration *)

Lemma injected_other config :
  nc_Name config ≠ BsDefaultName → injected config = config.
Proof. intros Hne. unfold injected. by rewrite decide_False. Qed.

Lemma injected_fields config :
  nc_Name (injected config) = nc_Name config ∧
  PinnedImage (injected config) = PinnedImage config ∧
  Config (injected config) = Config config ∧
  Privileged (HostConfig (injected config)) = Privileged (HostConfig config) ∧
  hc_RestartPolicy (HostConfig (injected config))
    = hc_RestartPolicy (HostConfig config) ∧
  NetworkMode (HostConfig (injected config)) = NetworkMode (HostConfig config).
Proof. unfold injected. by case_decide. Qed.

Lemma injected_iter_fields (n : nat) config :
  nc_Name (Nat.iter n injected config) = nc_Name config ∧
  PinnedImage (Nat.iter n injected config) = PinnedImage config ∧
  Config (Nat.iter n injected config) = Config config ∧
  Privileged (HostConfig (Nat.iter n injected config))
    = Privileged (HostConfig config) ∧
  hc_RestartPolicy (HostConfig (Nat.iter n injected config))
    = hc_RestartPolicy (HostConfig config) ∧
  NetworkMode (HostConfig (Nat.iter n injected config))
    = NetworkMode (HostConfig config).
Proof.
  induction n as [|n IH]; simpl; [done|].
  destruct (injected_fields (Nat.iter n injected config))
    as (-> & -> & -> & -> & -> & ->). exact IH.
Qed.

Lemma injected_iter_Binds (n : nat) config :
  ∃ k : nat, (k ≤ n)%nat ∧
       Binds (HostConfig (Nat.iter n injected config)) =
         (Binds (HostConfig config) ++ concat (replicate k bsBinds))%list.
Proof.
  induction n as [|n (k & Hk & IH)]; simpl.
  - exists 0. by rewrite app_nil_r.
  - unfold injected at 1. case_decide.
    + exists (S k). split; [lia|]. simpl. rewrite IH, <-app_assoc. f_equal.
      clear. induction k as [|k IHk]; simpl; [done|].
      by rewrite <-IHk.
    + exists k. split; [lia|done].
Qed.

Lemma injected_iter_other (n : nat) config :
  nc_Name config ≠ BsDefaultName → Nat.iter n injected config = config.
Proof.
  intros Hne. induction n as [|n IH]; simpl; [done|].
  rewrite IH. by apply injected_other.
Qed.

Lemma forCluster_config client config pool filter placementOnly :
  (deployNodeContainerForCluster client config pool filter placementOnly).1.1 = config ∨
  (deployNodeContainerForCluster client config pool filter placementOnly).1.1
    = injected config.
Proof.
  unfold deployNodeContainerForCluster.
  destruct (fetchOld _ client) as [[oldDs|err] c1]; simpl; [|by left].
  destruct (placement filter) as [[annotations affinity]|err]; simpl; [|by left].
  destruct oldDs as [oldDs|], placementOnly;
    try (right; apply fullReconcile_config).
  case_match; [by left|].
  destruct (DaemonSets_Update _ c1). by left.
Qed.

Lemma eachCluster_config clusters config pool filter placementOnly :
  ∃ n : nat, (n ≤ length clusters)%nat ∧
       (eachCluster (reconcileCluster pool filter placementOnly) clusters config).1.1
         = Nat.iter n injected config.
Proof.
  revert config. induction clusters as [|client rest IH]; intros config; simpl.
  - by exists 0.
  - unfold reconcileCluster at 1.
    pose proof (forCluster_config client config pool filter placementOnly) as Hc.
    destruct (deployNodeContainerForCluster client config pool filter placementOnly)
      as [[config1 client1] [err|]]; simpl in *.
    + destruct Hc as [->| ->]; [by exists 0; split; [lia|]|].
      exists 1. split; [lia|done].
    + destruct (IH config1) as (n & Hn & Heq).
      destruct (eachCluster (reconcileCluster pool filter placementOnly) rest config1)
        as [[config2 rest'] err']. simpl in *. subst config2.
      destruct Hc as [->| ->]; [exists n; split; [lia|done]|].
      exists (S n). split; [lia|].
      clear. induction n as [|n IHn]; simpl; [done|]. by rewrite IHn.
Qed.

Lemma DeployNodeContainer_config clusters config pool filter placementOnly :
  ∃ n : nat, (n ≤ length clusters)%nat ∧
       (DeployNodeContainer clusters config pool filter placementOnly).1.1
         = Nat.iter n injected config.
Proof.
  unfold DeployNodeContainer, forEachCluster.
  destruct clusters as [|client rest].
  - exists 0. split; [done|]. by case_decide.
  - destruct (eachCluster_config (client :: rest) config pool filter placementOnly)
      as (n & Hn & Heq).
    destruct (eachCluster (reconcileCluster pool filter placementOnly)
                (client :: rest) config)
      as [[config' clusters'] err]. simpl in Heq.
    exists n. split; [done|]. by case_decide.
Qed.

(** C8, as amended. After [DeployNodeContainer] the configuration the
    caller holds has its name, pinned image, container configuration,
    privileged flag, restart policy and network mode unchanged. For every
    name other than the default one the whole configuration is unchanged.
    For every name the binds start with the binds before the call, followed
    by copies of the three fixed binds only. *)
Theorem C8_configuration_after_DeployNodeContainer (clusters : list clusterClient)
    (config : NodeContainerConfig) (pool : string) (filter : PoolFilter)
    (placementOnly : bool) :
  let config' :=
    (DeployNodeContainer clusters config pool filter placementOnly).1.1 in
  nc_Name config' = nc_Name config ∧
  PinnedImage config' = PinnedImage config ∧
  Config config' = Config config ∧
  Privileged (HostConfig config') = Privileged (HostConfig config) ∧
  hc_RestartPolicy (HostConfig config') = hc_RestartPolicy (HostConfig config) ∧
  NetworkMode (HostConfig config') = NetworkMode (HostConfig config) ∧
  (nc_Name config ≠ BsDefaultName → config' = config) ∧
  ∃ k : nat, (k ≤ length clusters)%nat ∧
       Binds (HostConfig config') =
         (Binds (HostConfig config) ++ concat (replicate k bsBinds))%list.
Proof.
  cbv zeta.
  destruct (DeployNodeContainer_config clusters config pool filter placementOnly)
    as (n & Hn & ->).
  destruct (injected_iter_fields n config) as (? & ? & ? & ? & ? & ?).
  split_and!; try done.
  - intros Hne. by apply injected_iter_other.
  - destruct (injected_iter_Binds n config) as (k & Hk & ?).
    exists k. split; [lia|done].
Qed.

End proofs.

(** ** The claims on a deployment of the package *)

(** The filter that excludes "pool-b", whose affinity is built and
    serialized, and the filter without values, which has none. *)
Lemma C7_witness_exclude :
  Operator (@nodeRequirement tsuruExternals notPoolB) = NodeSelectorOpNotIn ∧
  Values (@nodeRequirement tsuruExternals notPoolB) = Some ["pool-b"] ∧
  @placement tsuruExternals notPoolB =
    inl ({[ alphaAffinityAnnotation := renderAffinity poolB_excluded ]},
         Some poolB_excluded) ∧
  @placement tsuruExternals everyPool = inl (∅, None).
Proof.
  destruct (@C7_node_selection_requirement tsuruExternals notPoolB)
    as (_ & Hex & _ & _ & Hbuilt & _).
  destruct (@C7_node_selection_requirement tsuruExternals everyPool)
    as (_ & _ & _ & Hempty & _).
  destruct Hex as [Hop Hvals]; [simpl; lia|].
  split; [exact Hop|]. split; [exact Hvals|]. split.
  - apply Hbuilt. simpl. lia.
  - apply Hempty. reflexivity.
Defined.


Lemma C6_witness_changed_filter :
  ∃ newDs client' err,
    @deployNodeContainerForCluster tsuruExternals
      (clusterAfter logShipper "" onlyPoolA) logShipper "" notPoolB true
      = (logShipper, client', err) ∧
    sent (clusterAfter logShipper "" onlyPoolA) client'
      = [GetDaemonSet "default" "node-container-log-shipper-all";
         UpdateDaemonSet "default" newDs] ∧
    Containers (tpl_Spec (Template (Spec newDs))) =
      Containers (tpl_Spec (Template (Spec
        (default newDs (daemonSets (clusterAfter logShipper "" onlyPoolA)
                          !! "node-container-log-shipper-all"))))).
Proof.
  destruct (@C6_placement_only_update_touches_placement tsuruExternals
              (clusterAfter logShipper "" onlyPoolA) logShipper "" notPoolB
              (storedIn (clusterAfter logShipper "" onlyPoolA)
                 "node-container-log-shipper-all")
              (placementOf notPoolB).1 (placementOf notPoolB).2)
    as (newDs & client' & err & Hrun & _ & Hsent & _ & _ & Hsame & _).
  - split; reflexivity.
  - reflexivity.
  - right. apply (bool_decide_eq_false_1 _). reflexivity.
  - exists newDs, client', err. split; [exact Hrun|]. split; [exact Hsent|].
    apply Hsame.
Defined.

(** C8 as stated fails for the default node container: a full
    reconciliation on one cluster leaves three more binds in the
    configuration. *)
Lemma C8_counterexample_default_name :
  nc_Name bigSibling = @BsDefaultName tsuruExternals ∧
  Binds (HostConfig
           (@DeployNodeContainer tsuruExternals [emptyCluster] bigSibling ""
              everyPool false).1.1)
    = [ "/proc:/prochost:ro";
        "/var/log:/var/log:rw";
        "/var/lib/docker/containers:/var/lib/docker/containers:ro";
        "/mnt/sda1/var/lib/docker/containers:/mnt/sda1/var/lib/docker/containers:ro" ] ∧
  (@DeployNodeContainer tsuruExternals [emptyCluster] bigSibling ""
     everyPool false).1.1 ≠ bigSibling.
Proof.
  split; [reflexivity|]. split; [vm_compute; reflexivity|].
  intros Heq. apply (f_equal (λ c, length (Binds (HostConfig c)))) in Heq.
  vm_compute in Heq. discriminate Heq.
Qed.

Lemma C8_witness_other_name :
  (@DeployNodeContainer tsuruExternals [emptyCluster] logShipper ""
     everyPool false).1.1 = logShipper.
Proof.
  destruct (@C8_configuration_after_DeployNodeContainer tsuruExternals
              [emptyCluster] logShipper "" everyPool false)
    as (_ & _ & _ & _ & _ & _ & Hsame & _).
  apply Hsame. vm_compute. discriminate.
Defined.

(** Equality of the placement is deep equality: annotations that are [nil]
    in the existing object differ from the empty map computed for a filter
    without values, and the update is sent. *)
Example nil_annotations_are_not_empty :
  ∃ newDs client' err,
    @deployNodeContainerForCluster tsuruExternals
      (dropEmptyAnnotations (clusterAfter logShipper "" everyPool))
      logShipper "" everyPool true = (logShipper, client', err) ∧
    sent (dropEmptyAnnotations (clusterAfter logShipper "" everyPool)) client'
      = [GetDaemonSet "default" "node-container-log-shipper-all";
         UpdateDaemonSet "default" newDs].
Proof. eexists _, _, _. split; vm_compute; reflexivity. Qed.

(** ** Splitting settings *)

Lemma cut_Some sep s before after :
  cut sep s = Some (before, after) →
  s = before +:+ String sep after ∧ sep ∉ letters before.
Proof.
  revert before. induction s as [|c s IH]; intros before; simpl; [done|].
  case_decide as Hc.
  - intros [= <- <-]. subst c. split; [done|]. by intros ?%elem_of_nil.
  - destruct (cut sep s) as [[b a]|]; [|done].
    intros [= <- <-]. destruct (IH b eq_refl) as [-> Hnot].
    split; [done|]. simpl. by intros [?|?]%elem_of_cons.
Qed.

Lemma cut_first sep before after :
  sep ∉ letters before →
  cut sep (before +:+ String sep after) = Some (before, after).
Proof.
  induction before as [|c s IH]; simpl; intros Hnot.
  - by rewrite decide_True.
  - apply not_elem_of_cons in Hnot as [Hne Hnot].
    rewrite decide_False by done. by rewrite IH.
Qed.

Lemma cut_None sep s : sep ∉ letters s → cut sep s = None.
Proof.
  induction s as [|c s IH]; simpl; intros Hnot; [done|].
  apply not_elem_of_cons in Hnot as [Hne Hnot].
  rewrite decide_False by done. by rewrite IH.
Qed.

(** X15. An environment entry [KEY=VALUE] whose key holds no [=] sign is
    parsed into that key and that value, whatever the value holds, further
    [=] signs included; an entry without an [=] sign is a variable of that
    name with the empty value. *)
Theorem envVar_parses_key_value (key value entry : string) :
  ("="%char ∉ letters key →
   envVar (key +:+ String "=" value) = {| env_Name := key; env_Value := value |}) ∧
  ("="%char ∉ letters entry →
   envVar entry = {| env_Name := entry; env_Value := "" |}).
Proof.
  split; intros Hnot; unfold envVar; simpl.
  - by rewrite cut_first.
  - by rewrite cut_None.
Qed.

Lemma envVar_parses_witness :
  envVar "OPTS=a=b" = {| env_Name := "OPTS"; env_Value := "a=b" |}.
Proof.
  destruct (envVar_parses_key_value "OPTS" "a=b" "") as [Hkv _].
  apply Hkv. apply (bool_decide_unpack _). vm_compute. reflexivity.
Defined.

(** X16. A bind [src:dst:mode] whose source and destination hold no colon
    becomes the volume of host path [src] and the mount at [dst], read-only
    exactly when the mode is [ro]; without a mode the mount is writable;
    a bind without any colon is a volume of that host path mounted at the
    empty path. Volume and mount carry the same name, [volume-i]. *)
Theorem bindVolume_parses_bind (i : nat) (src dst mode : string) :
  let named := "volume-" +:+ pretty i in
  ":"%char ∉ letters src →
  (":"%char ∉ letters dst →
   bindVolume i (src +:+ String ":" (dst +:+ String ":" mode)) =
     ({| vol_Name := named; vol_HostPath := Some src |},
      {| mount_Name := named; MountPath := dst;
         ReadOnly := bool_decide (mode = "ro") |}) ∧
   bindVolume i (src +:+ String ":" dst) =
     ({| vol_Name := named; vol_HostPath := Some src |},
      {| mount_Name := named; MountPath := dst; ReadOnly := false |})) ∧
  bindVolume i src =
    ({| vol_Name := named; vol_HostPath := Some src |},
     {| mount_Name := named; MountPath := ""; ReadOnly := false |}).
Proof.
  intros named Hsrc. split; [intros Hdst; split|]; unfold bindVolume; simpl.
  - rewrite (cut_first _ _ _ Hsrc), (cut_first _ _ _ Hdst). done.
  - rewrite (cut_first _ _ _ Hsrc), (cut_None _ _ Hdst). done.
  - rewrite (cut_None _ _ Hsrc). done.
Qed.

Lemma bindVolume_parses_witness :
  bindVolume 2 "/var/log:/logs:ro" =
    ({| vol_Name := "volume-2"; vol_HostPath := Some "/var/log" |},
     {| mount_Name := "volume-2"; MountPath := "/logs"; ReadOnly := true |}).
Proof.
  destruct (bindVolume_parses_bind 2 "/var/log" "/logs" "ro") as [Hfull _].
  - apply (bool_decide_unpack _). vm_compute. reflexivity.
  - destruct Hfull as [H3 _].
    + apply (bool_decide_unpack _). vm_compute. reflexivity.
    + exact H3.
Defined.

(** ** The daemon set of a full reconciliation *)

Section desired.
Context `{!Externals}.

Lemma appended_default {A : Type} (l : list A) : default [] (appended l) = l.
Proof. by destruct l. Qed.

Lemma len_appended {A : Type} (l : list A) : len (appended l) = length l.
Proof. by destruct l. Qed.

Lemma appended_lookup {A : Type} (l : list A) i x :
  l !! i = Some x → appended l = Some l.
Proof. by destruct l. Qed.

(** X17. The daemon set built by a full reconciliation has one container,
    and one volume and one volume mount per bind of the configuration, in
    the order of the binds: the i-th pair is the parse of the i-th bind and
    both are named [volume-i]; the volume names are pairwise different;
    without binds the volumes and the mounts are [nil]. *)
Theorem desired_volumes_follow_binds (namespace dsName pool : string)
    (config : NodeContainerConfig) (ls : NodeContainerLabelsOpts)
    (annotations : gmap string string) (affinity : option Affinity) :
  let ds := desiredDaemonSet namespace dsName pool config ls annotations affinity in
  let binds := Binds (HostConfig config) in
  let volumes := Volumes (tpl_Spec (Template (Spec ds))) in
  ∃ ct, containerOf ds = Some ct ∧
        ct_Name ct = nc_Name config ∧
        len volumes = length binds ∧
        len (ct_VolumeMounts ct) = length binds ∧
        (binds = [] → volumes = None ∧ ct_VolumeMounts ct = None) ∧
        (∀ i b, binds !! i = Some b →
           ∃ vols mounts vol mount,
             volumes = Some vols ∧ ct_VolumeMounts ct = Some mounts ∧
             vols !! i = Some vol ∧ mounts !! i = Some mount ∧
             (vol, mount) = bindVolume i b ∧
             vol_Name vol = "volume-" +:+ pretty i ∧
             mount_Name mount = vol_Name vol) ∧
        NoDup (vol_Name <$> default [] volumes).
Proof.
  cbv zeta. eexists. split; [done|]. simpl.
  split_and!.
  - done.
  - by rewrite len_appended, length_fmap, length_imap.
  - by rewrite len_appended, length_fmap, length_imap.
  - by intros ->.
  - intros i b Hb.
    assert (imap bindVolume (Binds (HostConfig config)) !! i
              = Some (bindVolume i b)) as Hi.
    { by rewrite list_lookup_imap, Hb. }
    exists ((imap bindVolume (Binds (HostConfig config))).*1),
           ((imap bindVolume (Binds (HostConfig config))).*2),
           (bindVolume i b).1, (bindVolume i b).2.
    split_and!.
    + eapply appended_lookup. by rewrite list_lookup_fmap, Hi.
    + eapply appended_lookup. by rewrite list_lookup_fmap, Hi.
    + by rewrite list_lookup_fmap, Hi.
    + by rewrite list_lookup_fmap, Hi.
    + by destruct (bindVolume i b).
    + done.
    + done.
  - rewrite appended_default. apply NoDup_alt. intros i j name.
    rewrite !list_lookup_fmap, !list_lookup_imap.
    destruct (Binds (HostConfig config) !! i) as [bi|]; [|done].
    destruct (Binds (HostConfig config) !! j) as [bj|]; [|done].
    simpl. intros [= <-] [= Heq].
    simpl in Heq. symmetry. exact (inj pretty _ _ Heq).
Qed.

End desired.

(** ** The requests of a reconciliation *)

Section requests.
Context `{!Externals}.

Lemma fetchOld_client name client :
  (fetchOld name client).2
    = record_request (GetDaemonSet (client_Namespace client) name) client.
Proof.
  unfold fetchOld, DaemonSets_Get. simpl.
  repeat case_match; by simplify_eq/=.
Qed.

Lemma Update_frame ds c name :
  name ≠ Name (ds_ObjectMeta ds) →
  daemonSets (DaemonSets_Update ds c).2 !! name = daemonSets c !! name.
Proof.
  intros Hne. unfold DaemonSets_Update. simpl.
  repeat case_match; simpl; try done. by rewrite lookup_insert_ne.
Qed.

Lemma Create_frame ds c name :
  name ≠ Name (ds_ObjectMeta ds) →
  daemonSets (DaemonSets_Create ds c).2 !! name = daemonSets c !! name.
Proof.
  intros Hne. unfold DaemonSets_Create. simpl.
  repeat case_match; simpl; try done. by rewrite lookup_insert_ne.
Qed.

(** The three shapes of a reconciliation: it stops after the read, or it
    sends one update, or it sends one creation. *)
Lemma forCluster_shape client config pool filter placementOnly :
  let r := deployNodeContainerForCluster client config pool filter placementOnly in
  let c1 := record_request (getRequest client config pool) client in
  (r.1.2 = c1 ∧ r.1.1 = config ∧ (r.2 = None ∨ ∃ e, r.2 = Some (withStack e))) ∨
  (∃ ds, r.1.2 = (DaemonSets_Update ds c1).2 ∧
         r.2 = errors_WithStack (DaemonSets_Update ds c1).1) ∨
  (∃ ds, r.1.2 = (DaemonSets_Create ds c1).2 ∧
         r.2 = errors_WithStack (DaemonSets_Create ds c1).1).
Proof.
  cbv zeta. unfold deployNodeContainerForCluster.
  pose proof (fetchOld_client (daemonSetName (nc_Name config) pool) client) as Hc.
  fold (getRequest client config pool) in Hc.
  destruct (fetchOld _ client) as [[oldDs|e] c1]; simpl in Hc; subst c1; simpl.
  2:{ left. split_and!; [done..|]. right. by eexists. }
  destruct (placement filter) as [[annotations affinity]|e]; simpl.
  2:{ left. split_and!; [done..|]. right. by eexists. }
  assert (∀ old,
    let r := fullReconcile (record_request (getRequest client config pool) client)
               config pool (daemonSetName (nc_Name config) pool) old
               annotations affinity in
    (∃ ds, r.1.2 = (DaemonSets_Update ds
                      (record_request (getRequest client config pool) client)).2 ∧
           r.2 = errors_WithStack (DaemonSets_Update ds
                      (record_request (getRequest client config pool) client)).1) ∨
    (∃ ds, r.1.2 = (DaemonSets_Create ds
                      (record_request (getRequest client config pool) client)).2 ∧
           r.2 = errors_WithStack (DaemonSets_Create ds
                      (record_request (getRequest client config pool) client)).1))
    as Hfull.
  { intros old. cbv zeta. unfold fullReconcile.
    match goal with |- context [desiredDaemonSet ?a ?b ?c ?d ?e ?f ?g] =>
      set (ds := desiredDaemonSet a b c d e f g) end.
    destruct old; [left|right]; exists ds.
    - by destruct (DaemonSets_Update ds _).
    - by destruct (DaemonSets_Create ds _). }
  destruct oldDs as [oldDs|], placementOnly; try (right; apply Hfull).
  case_match.
  - left. split_and!; [done..|]. by left.
  - right. left.
    match goal with |- context [DaemonSets_Update ?d _] => exists d end.
    by destruct (DaemonSets_Update _ _).
Qed.

(** X18. Every reconciliation of a cluster first reads the daemon set and
    then sends at most one write, an update or a creation; the namespace of
    the requests is the client's; a stored daemon set changes only under
    the name the write carries; and an error it returns is always a
    stack-wrapped one. *)
Theorem reconcile_reads_then_writes_at_most_once (client : clusterClient)
    (config : NodeContainerConfig) (pool : string) (filter : PoolFilter)
    (placementOnly : bool) :
  let r := deployNodeContainerForCluster client config pool filter placementOnly in
  (sent client r.1.2 = [getRequest client config pool] ∨
   ∃ ds, sent client r.1.2 =
           [getRequest client config pool;
            UpdateDaemonSet (client_Namespace client) ds] ∨
         sent client r.1.2 =
           [getRequest client config pool;
            CreateDaemonSet (client_Namespace client) ds]) ∧
  (∀ name,
     (∀ q ds, q ∈ sent client r.1.2 → written q = Some ds →
              Name (ds_ObjectMeta ds) ≠ name) →
     daemonSets r.1.2 !! name = daemonSets client !! name) ∧
  (∀ e, r.2 = Some e → kindOf e = KWithStack).
Proof.
  cbv zeta.
  destruct (forCluster_shape client config pool filter placementOnly)
    as [(Hc & _ & Herr)|[(ds & Hc & Herr)|(ds & Hc & Herr)]];
    rewrite Hc, ?Herr.
  - assert (sent client (record_request (getRequest client config pool) client)
              = [getRequest client config pool]) as Hs by by apply sent_app.
    split_and!; [by left|done|].
    intros e He. destruct Herr as [Hn|[e0 He0]]; [congruence|].
    rewrite He0 in He. by injection He as <-.
  - assert (sent client (DaemonSets_Update ds
              (record_request (getRequest client config pool) client)).2
            = [getRequest client config pool;
               UpdateDaemonSet (client_Namespace client) ds]) as Hs.
    { apply sent_app. rewrite Update_requests. simpl. by rewrite <-app_assoc. }
    rewrite Hs. split_and!.
    + right. exists ds. by left.
    + intros name Hname. rewrite Update_frame; [done|].
      intros ->.
      eapply (Hname (UpdateDaemonSet (client_Namespace client) ds) ds);
        [|done|done]. right. by left.
    + intros e He. by destruct (DaemonSets_Update _ _).1; simplify_eq/=.
  - assert (sent client (DaemonSets_Create ds
              (record_request (getRequest client config pool) client)).2
            = [getRequest client config pool;
               CreateDaemonSet (client_Namespace client) ds]) as Hs.
    { apply sent_app. rewrite Create_requests. simpl. by rewrite <-app_assoc. }
    rewrite Hs. split_and!.
    + right. exists ds. by right.
    + intros name Hname. rewrite Create_frame; [done|].
      intros ->.
      eapply (Hname (CreateDaemonSet (client_Namespace client) ds) ds);
        [|done|done]. right. by left.
    + intros e He. by destruct (DaemonSets_Create _ _).1; simplify_eq/=.
Qed.

End requests.

(** ** Reconciliations in sequence *)

Section sequence.
Context `{!Externals}.

Lemma Create_accepted ds c :
  apiFaults c (CreateDaemonSet (client_Namespace c) ds) = None →
  daemonSets c !! Name (ds_ObjectMeta ds) = None →
  DaemonSets_Create ds c =
    (None, set_daemonSets (<[Name (ds_ObjectMeta ds) := ds]> (daemonSets c))
             (record_request (CreateDaemonSet (client_Namespace c) ds) c)).
Proof. intros Hf Hn. unfold DaemonSets_Create. simpl. by rewrite Hf, Hn. Qed.

Lemma Update_accepted ds c old :
  apiFaults c (UpdateDaemonSet (client_Namespace c) ds) = None →
  daemonSets c !! Name (ds_ObjectMeta ds) = Some old →
  DaemonSets_Update ds c =
    (None, set_daemonSets (<[Name (ds_ObjectMeta ds) := ds]> (daemonSets c))
             (record_request (UpdateDaemonSet (client_Namespace c) ds) c)).
Proof. intros Hf Hn. unfold DaemonSets_Update. simpl. by rewrite Hf, Hn. Qed.

(** A full reconciliation, step by step. *)
Lemma forCluster_full client config pool filter placementOnly oldDs
    annotations affinity :
  fetchOld (daemonSetName (nc_Name config) pool) client
    = (inl oldDs, record_request (getRequest client config pool) client) →
  placement filter = inl (annotations, affinity) →
  oldDs = None ∨ placementOnly = false →
  deployNodeContainerForCluster client config pool filter placementOnly =
    fullReconcile (record_request (getRequest client config pool) client)
      config pool (daemonSetName (nc_Name config) pool) oldDs
      annotations affinity.
Proof.
  intros Hfetch Hpl Hfull. unfold deployNodeContainerForCluster.
  rewrite Hfetch, Hpl. simpl.
  destruct oldDs as [oldDs|], placementOnly; try done. by destruct Hfull.
Qed.

(** X19. A reconciliation stops after the read, without sending a write
    and with the configuration and the stored daemon sets as they were,
    when the cluster rejects the read with an error other than not-found
    and when the affinity does not serialize; it returns that error under a
    stack wrapper. *)
Theorem reconcile_aborts_without_writing (client : clusterClient)
    (config : NodeContainerConfig) (pool : string) (filter : PoolFilter)
    (placementOnly : bool) (e : error) :
  (apiFaults client (getRequest client config pool) = Some e ∧
   k8sErrors_IsNotFound e = false) ∨
  (apiFaults client (getRequest client config pool) = None ∧
   placement filter = inr e) →
  deployNodeContainerForCluster client config pool filter placementOnly
    = (config, record_request (getRequest client config pool) client,
       Some (withStack e)) ∧
  DeployNodeContainer [client] config pool filter placementOnly
    = (config, [record_request (getRequest client config pool) client],
       Some (withStack e)).
Proof.
  intros Hcause.
  assert (deployNodeContainerForCluster client config pool filter placementOnly
            = (config, record_request (getRequest client config pool) client,
               errors_WithStack (Some e))) as Hrun.
  { unfold deployNodeContainerForCluster, fetchOld, DaemonSets_Get. simpl.
    fold (getRequest client config pool).
    destruct Hcause as [[Hf Hnf]|[Hf Hpl]]; rewrite Hf.
    - by rewrite Hnf.
    - destruct (daemonSets client !! _); simpl; by rewrite Hpl. }
  split; [done|].
  by apply (DeployNodeContainer_single _ _ _ _ _ _ _ (Some e)).
Qed.

(** X20. On a cluster that accepts every request and has no daemon set for
    the configuration and pool, a reconciliation with a filter whose chosen
    values are not empty creates the daemon set and returns success; the
    cluster then stores it under the daemon set name, and a placement-only
    reconciliation with the same filter that follows sends the read only
    and returns success, whether the cluster hands the stored daemon sets
    back as they were written or with their empty annotation maps turned
    into [nil]. (With a filter without values the annotations written are
    the empty map, and the second reconciliation depends on how the cluster
    hands it back: see [nil_annotations_are_not_empty].) *)
Theorem create_then_placement_only_is_noop (client : clusterClient)
    (config : NodeContainerConfig) (pool : string) (filter : PoolFilter)
    (placementOnly : bool) (annotations : gmap string string)
    (affinity : option Affinity) :
  absent client config pool →
  (∀ q, apiFaults client q = None) →
  len (Values (nodeRequirement filter)) ≠ 0 →
  placement filter = inl (annotations, affinity) →
  let r := deployNodeContainerForCluster client config pool filter placementOnly in
  r.2 = None ∧
  (∃ ds, sent client r.1.2 = [getRequest client config pool;
                             CreateDaemonSet (client_Namespace client) ds] ∧
         daemonSets r.1.2 !! daemonSetName (nc_Name config) pool = Some ds) ∧
  deployNodeContainerForCluster r.1.2 r.1.1 pool filter true
    = (r.1.1, record_request (getRequest r.1.2 r.1.1 pool) r.1.2, None) ∧
  deployNodeContainerForCluster (dropEmptyAnnotations r.1.2) r.1.1 pool filter true
    = (r.1.1,
       record_request (getRequest (dropEmptyAnnotations r.1.2) r.1.1 pool)
         (dropEmptyAnnotations r.1.2),
       None).
Proof.
  intros Habs Hhealthy Hnz Hpl. cbv zeta.
  assert (annotations ≠ ∅) as Hne.
  { rewrite placement_nonempty in Hpl by done.
    destruct (json_Marshal _) as [data|err]; [|done].
    injection Hpl as <- _. apply insert_non_empty. }
  rewrite (forCluster_full _ _ _ _ _ None annotations affinity);
    [|by apply fetchOld_absent|done|by left].
  unfold fullReconcile.
  match goal with |- context [DaemonSets_Create ?d ?c] =>
    set (ds := d); set (c1 := c) end.
  rewrite (Create_accepted ds c1); [|apply Hhealthy|apply Habs]. simpl.
  fold (injected config).
  assert (nc_Name (injected config) = nc_Name config) as Hname
    by apply injected_fields.
  split_and!; [done| | |].
  - exists ds. split; [|by rewrite lookup_insert_eq].
    apply sent_app. simpl. by rewrite <-app_assoc.
  - apply (forCluster_placement_only_match _ _ _ _ ds annotations affinity);
      try done.
    split; simpl.
    + apply Hhealthy.
    + rewrite Hname. by rewrite lookup_insert_eq.
  - apply (forCluster_placement_only_match _ _ _ _ ds annotations affinity);
      try done.
    split; simpl.
    + apply Hhealthy.
    + rewrite Hname, lookup_fmap, lookup_insert_eq. simpl.
      by rewrite decide_False.
Qed.

End sequence.

Lemma reconcile_aborts_witness :
  @deployNodeContainerForCluster tsuruExternals
     (unreadable "node-container-log-shipper-all" (statusError "Forbidden" "no"))
     logShipper "" onlyPoolA false
  = (logShipper,
     record_request (GetDaemonSet "default" "node-container-log-shipper-all")
       (unreadable "node-container-log-shipper-all" (statusError "Forbidden" "no")),
     Some (withStack (statusError "Forbidden" "no"))).
Proof.
  apply (@reconcile_aborts_without_writing tsuruExternals).
  left. split; vm_compute; reflexivity.
Defined.

Lemma create_then_placement_only_witness :
  ∃ client',
    @deployNodeContainerForCluster tsuruExternals
      (clusterAfter bigSibling "pool-a" onlyPoolA)
      (@injected tsuruExternals bigSibling) "pool-a" onlyPoolA true
    = (@injected tsuruExternals bigSibling, client', None).
Proof.
  destruct (@create_then_placement_only_is_noop tsuruExternals emptyCluster
              bigSibling "pool-a" onlyPoolA false
              (placementOf onlyPoolA).1 (placementOf onlyPoolA).2)
    as (_ & _ & Hnoop & _).
  - split; reflexivity.
  - intros q. reflexivity.
  - simpl. lia.
  - reflexivity.
  - exists (record_request
              (@getRequest tsuruExternals (clusterAfter bigSibling "pool-a" onlyPoolA)
                 (@injected tsuruExternals bigSibling) "pool-a")
              (clusterAfter bigSibling "pool-a" onlyPoolA)).
    exact Hnoop.
Defined.

(** ** Replacing and reconciling again *)

Section again.
Context `{!Externals}.

Lemma desired_volumes_len namespace dsName pool config ls annotations affinity :
  len (Volumes (tpl_Spec (Template (Spec
         (desiredDaemonSet namespace dsName pool config ls annotations affinity)))))
    = length (Binds (HostConfig config)).
Proof. simpl. by rewrite len_appended, length_fmap, length_imap. Qed.

(** X21. A full reconciliation replaces an existing daemon set wholesale:
    the object its update carries is the object a creation would carry on
    a cluster of the same namespace that has none, with the daemon set name
    and the namespace as its only metadata; nothing of the existing object
    goes into it. *)
Theorem update_carries_the_object_of_a_creation (c1 c2 : clusterClient)
    (config : NodeContainerConfig) (pool : string) (filter : PoolFilter)
    (oldDs : DaemonSet) (annotations : gmap string string)
    (affinity : option Affinity) :
  existing c1 config pool oldDs →
  absent c2 config pool →
  client_Namespace c1 = client_Namespace c2 →
  placement filter = inl (annotations, affinity) →
  ∃ ds,
    sent c1 (deployNodeContainerForCluster c1 config pool filter false).1.2
      = [getRequest c1 config pool; UpdateDaemonSet (client_Namespace c1) ds] ∧
    sent c2 (deployNodeContainerForCluster c2 config pool filter false).1.2
      = [getRequest c2 config pool; CreateDaemonSet (client_Namespace c2) ds] ∧
    ds_ObjectMeta ds =
      {| Name := daemonSetName (nc_Name config) pool;
         Namespace := client_Namespace c1;
         ResourceVersion := ""; Labels := None; Annotations := None |} ∧
    Status_NumberReady ds = 0.
Proof.
  intros Hex Habs Hns Hpl.
  rewrite (forCluster_full c1 _ _ _ _ (Some oldDs) annotations affinity);
    [|by apply fetchOld_existing|done|by right].
  rewrite (forCluster_full c2 _ _ _ _ None annotations affinity);
    [|by apply fetchOld_absent|done|by left].
  rewrite !fullReconcile_client. cbv zeta. simpl. rewrite <-Hns.
  eexists. split_and!.
  - apply sent_app. rewrite Update_requests. simpl. by rewrite <-app_assoc.
  - apply sent_app. rewrite Create_requests. simpl. by rewrite <-app_assoc, Hns.
  - done.
  - done.
Qed.

(** X22. The three binds of the default node container are appended to the
    configuration the caller shares at every full reconciliation: on a
    cluster that accepts every request and has no daemon set yet, the first
    reconciliation creates a daemon set with three volumes more than the
    configuration had binds, and a second full reconciliation with the same
    configuration value updates it to one with six more. *)
Theorem default_binds_accumulate (client : clusterClient)
    (config : NodeContainerConfig) (pool : string) (filter : PoolFilter)
    (annotations : gmap string string) (affinity : option Affinity) :
  nc_Name config = BsDefaultName →
  absent client config pool →
  (∀ q, apiFaults client q = None) →
  placement filter = inl (annotations, affinity) →
  let binds := Binds (HostConfig config) in
  let r1 := deployNodeContainerForCluster client config pool filter false in
  let r2 := deployNodeContainerForCluster r1.1.2 r1.1.1 pool filter false in
  Binds (HostConfig r1.1.1) = (binds ++ bsBinds)%list ∧
  Binds (HostConfig r2.1.1) = (binds ++ bsBinds ++ bsBinds)%list ∧
  ∃ ds1 ds2,
    sent client r1.1.2 = [getRequest client config pool;
                          CreateDaemonSet (client_Namespace client) ds1] ∧
    sent r1.1.2 r2.1.2 = [getRequest client config pool;
                          UpdateDaemonSet (client_Namespace client) ds2] ∧
    len (Volumes (tpl_Spec (Template (Spec ds1)))) = (length binds + 3)%nat ∧
    len (Volumes (tpl_Spec (Template (Spec ds2)))) = (length binds + 6)%nat.
Proof.
  intros Hbs Habs Hhealthy Hpl. cbv zeta.
  assert (injected config = set_Binds (Binds (HostConfig config) ++ bsBinds)%list config)
    as Hinj by (unfold injected; by rewrite decide_True).
  assert (nc_Name (injected config) = nc_Name config) as Hname
    by apply injected_fields.
  assert (injected (injected config) =
            set_Binds ((Binds (HostConfig config) ++ bsBinds) ++ bsBinds)%list
              (injected config)) as Hinj2.
  { unfold injected at 1. rewrite decide_True; [by rewrite Hinj|]. by rewrite Hname. }
  set (opts := {| opts_Name := nc_Name config;
                  CustomLabels := cfg_Labels (Config config);
                  Pool := pool;
                  Provisioner := provisionerName;
                  Prefix := tsuruLabelPrefix |}).
  set (ds1 := desiredDaemonSet (client_Namespace client)
                (daemonSetName (nc_Name config) pool) pool (injected config)
                opts annotations affinity).
  set (c1 := record_request (getRequest client config pool) client).
  set (c2 := set_daemonSets
               (<[daemonSetName (nc_Name config) pool := ds1]> (daemonSets client))
               (record_request (CreateDaemonSet (client_Namespace client) ds1) c1)).
  assert (deployNodeContainerForCluster client config pool filter false
            = (injected config, c2, None)) as Hr1.
  { rewrite (forCluster_full client _ _ _ _ None annotations affinity);
      [|by apply fetchOld_absent|done|by left].
    unfold fullReconcile. fold (injected config). fold opts. fold c1.
    change (client_Namespace c1) with (client_Namespace client). fold ds1.
    rewrite (Create_accepted ds1 c1); [done|apply Hhealthy|apply Habs]. }
  rewrite Hr1. simpl.
  assert (existing c2 (injected config) pool ds1) as Hex.
  { split; simpl; [apply Hhealthy|]. rewrite Hname. by rewrite lookup_insert_eq. }
  set (ds2 := desiredDaemonSet (client_Namespace client)
                (daemonSetName (nc_Name config) pool) pool
                (injected (injected config)) opts annotations affinity).
  assert ((deployNodeContainerForCluster c2 (injected config) pool filter false).1.1
            = injected (injected config) ∧
          (deployNodeContainerForCluster c2 (injected config) pool filter false).1.2
            = (DaemonSets_Update ds2
                 (record_request (getRequest c2 (injected config) pool) c2)).2)
    as [Hcfg2 Hcl2].
  { rewrite (forCluster_full c2 _ _ _ _ (Some ds1) annotations affinity);
      [|by apply fetchOld_existing|done|by right].
    rewrite fullReconcile_config, fullReconcile_client. cbv zeta.
    destruct (injected_fields config) as (-> & _ & -> & _). done. }
  split_and!.
  - by rewrite Hinj.
  - rewrite Hcfg2, Hinj2. simpl. by rewrite <-app_assoc.
  - exists ds1, ds2. rewrite Hcl2. split_and!.
    + apply sent_app. simpl. by rewrite <-app_assoc.
    + apply sent_app. rewrite Update_requests. simpl.
      unfold getRequest. simpl. rewrite Hname. by rewrite <-app_assoc.
    + subst ds1. rewrite desired_volumes_len, Hinj. simpl.
      by rewrite length_app.
    + subst ds2. rewrite desired_volumes_len, Hinj2. simpl.
      rewrite !length_app. simpl. lia.
Qed.

End again.

Lemma update_carries_witness :
  ∃ ds,
    sent (clusterAfter logShipper "" onlyPoolA)
      (@deployNodeContainerForCluster tsuruExternals
         (clusterAfter logShipper "" onlyPoolA) logShipper "" notPoolB false).1.2
    = [GetDaemonSet "default" "node-container-log-shipper-all";
       UpdateDaemonSet "default" ds] ∧
    ResourceVersion (ds_ObjectMeta ds) = "".
Proof.
  destruct (@update_carries_the_object_of_a_creation tsuruExternals
              (clusterAfter logShipper "" onlyPoolA) emptyCluster
              logShipper "" notPoolB
              (storedIn (clusterAfter logShipper "" onlyPoolA)
                 "node-container-log-shipper-all")
              (placementOf notPoolB).1 (placementOf notPoolB).2)
    as (ds & Hup & _ & Hmeta & _).
  - split; reflexivity.
  - split; reflexivity.
  - reflexivity.
  - reflexivity.
  - exists ds. split; [exact Hup|]. by rewrite Hmeta.
Defined.

Lemma default_binds_accumulate_witness :
  length (Binds (HostConfig
    (@deployNodeContainerForCluster tsuruExternals
       (@deployNodeContainerForCluster tsuruExternals emptyCluster bigSibling
          "" everyPool false).1.2
       (@deployNodeContainerForCluster tsuruExternals emptyCluster bigSibling
          "" everyPool false).1.1
       "" everyPool false).1.1)) = 7.
Proof.
  edestruct (@default_binds_accumulate tsuruExternals emptyCluster bigSibling
               "" everyPool) as (_ & H2 & _).
  - reflexivity.
  - split; vm_compute; reflexivity.
  - intros q. reflexivity.
  - vm_compute. reflexivity.
  - rewrite H2. vm_compute. reflexivity.
Defined.

End KubernetesProofs.

(** * Properties of the container address lookup *)

Module DockerProofs.
Import Docker.

Lemma messageFor_inj : Inj (=) (=) messageFor.
Proof. intros [] [] Heq; done || (vm_compute in Heq; discriminate Heq). Qed.

(** C10. Whenever the docker binary is configured and the inspect command
    fails, or its output does not decode, or the decoded document has no
    [NetworkSettings] or a null one, or the address in it is the empty
    string, [ip] returns, with the empty address and an error made by
    [errors.New]: it does not panic, the kind of the error is the same for
    the four causes and its message tells them apart. *)
Theorem C10_ip_failure_causes (cause : FailureCause) (c : container) (h : Host) :
  occurs cause c h →
  ∃ e h', ip c h = Returned "" (Some e) h' ∧
          kindOf e = KErrorString ∧
          messageOf e = messageFor cause ∧
          ∀ other, messageFor other = messageOf e → other = cause.
Proof.
  intros (docker & Hcfg & Hcause).
  assert (∀ h', ip c h = Returned "" (Some (errorString (messageFor cause))) h' →
          ∃ e h', ip c h = Returned "" (Some e) h' ∧
                  kindOf e = KErrorString ∧
                  messageOf e = messageFor cause ∧
                  ∀ other, messageFor other = messageOf e → other = cause) as Hgoal.
  { intros h' Hip. exists (errorString (messageFor cause)), h'.
    split_and!; [done..|]. intros other Heq. by apply messageFor_inj. }
  unfold ip in *. rewrite Hcfg in *. unfold runCmd in *. unfold inspect in Hcause.
  simpl in *.
  destruct (execute h docker ["inspect"; instanceId c]) as [out err]. simpl in *.
  destruct cause; simpl in *.
  - destruct Hcause as [e ->]. by eapply Hgoal.
  - destruct Hcause as (-> & e & He). rewrite He in *. by eapply Hgoal.
  - destruct Hcause as (-> & result & Hr & Hns). rewrite Hr in *.
    destruct Hns as [Hns|Hns]; rewrite Hns in *; by eapply Hgoal.
  - destruct Hcause as (-> & result & networkSettings & Hr & Hns & Hip).
    rewrite Hr, Hns, Hip in *. simpl in *. by eapply Hgoal.
Qed.

Lemma C10_witness_four_causes :
  (∃ e h', ip aContainer (hostAnswering "" (Some (foreignError "exec" "exit status 1")))
             = Returned "" (Some e) h' ∧ messageOf e = msg_inspect) ∧
  (∃ e h', ip aContainer (hostAnswering "<html>" None)
             = Returned "" (Some e) h' ∧ messageOf e = msg_json) ∧
  (∃ e h', ip aContainer (hostAnswering "{}" None)
             = Returned "" (Some e) h' ∧ messageOf e = msg_networkSettings) ∧
  (∃ e h', ip aContainer (hostAnswering "{NetworkSettings:{IpAddress:empty}}" None)
             = Returned "" (Some e) h' ∧ messageOf e = msg_ipaddress).
Proof.
  split_and!.
  - destruct (C10_ip_failure_causes InspectFails aContainer
                (hostAnswering "" (Some (foreignError "exec" "exit status 1"))))
      as (e & h' & Hip & _ & Hmsg & _); [|by exists e, h'].
    exists "/usr/bin/docker". split; [reflexivity|].
    exists (foreignError "exec" "exit status 1"). reflexivity.
  - destruct (C10_ip_failure_causes MalformedJSON aContainer
                (hostAnswering "<html>" None))
      as (e & h' & Hip & _ & Hmsg & _); [|by exists e, h'].
    exists "/usr/bin/docker". split; [reflexivity|].
    split; [reflexivity|].
    exists (foreignError "json" "invalid character"). reflexivity.
  - destruct (C10_ip_failure_causes NetworkSettingsMissing aContainer
                (hostAnswering "{}" None))
      as (e & h' & Hip & _ & Hmsg & _); [|by exists e, h'].
    exists "/usr/bin/docker". split; [reflexivity|].
    split; [reflexivity|]. exists (Some ∅). split; [reflexivity|].
    left. reflexivity.
  - destruct (C10_ip_failure_causes EmptyAddress aContainer
                (hostAnswering "{NetworkSettings:{IpAddress:empty}}" None))
      as (e & h' & Hip & _ & Hmsg & _); [|by exists e, h'].
    exists "/usr/bin/docker". split; [reflexivity|].
    split; [reflexivity|].
    exists (Some {[ "NetworkSettings" := JObject {[ "IpAddress" := JString "" ]} ]}),
           {[ "IpAddress" := JString "" ]}.
    split; [reflexivity|]. split; reflexivity.
Defined.

(** Outside the four causes: an address is returned when there is one, and
    a document whose [NetworkSettings] is not an object, or has no
    [IpAddress], makes the type assertions panic. *)
Example ip_found :
  ∃ h', ip aContainer (hostAnswering "{NetworkSettings:{IpAddress:10.10.10.10}}" None)
          = Returned "10.10.10.10" None h'.
Proof.
  exists (hostAfter (ip aContainer
            (hostAnswering "{NetworkSettings:{IpAddress:10.10.10.10}}" None))).
  reflexivity.
Qed.

Example ip_panics_without_IpAddress :
  ∃ h', ip aContainer (hostAnswering "{NetworkSettings:{}}" None) = Panic h'.
Proof.
  exists (hostAfter (ip aContainer (hostAnswering "{NetworkSettings:{}}" None))).
  reflexivity.
Qed.

Example ip_panics_on_scalar_NetworkSettings :
  ∃ h', ip aContainer (hostAnswering "{NetworkSettings:12}" None) = Panic h'.
Proof.
  exists (hostAfter (ip aContainer (hostAnswering "{NetworkSettings:12}" None))).
  reflexivity.
Qed.

(** ** The other operations of a container *)

Lemma strings_Replace_removes (s : string) (old : ascii) :
  old ∉ chars (strings_Replace s old "").
Proof.
  induction s as [|c s IH]; simpl.
  - by intros ?%elem_of_nil.
  - case_decide as Hc; simpl; [done|].
    intros [->|Hin]%elem_of_cons; [done|]. by apply IH.
Qed.

Lemma strings_Replace_absent (s : string) (old : ascii) (new : string) :
  old ∉ chars s → strings_Replace s old new = s.
Proof.
  induction s as [|c s IH]; simpl; [done|].
  intros Hnot. apply not_elem_of_cons in Hnot as [Hne Hnot].
  rewrite decide_False by done. by rewrite IH.
Qed.

(** X1. Without the [docker:binary] setting no operation of a container
    runs a command or logs a line: [ip], [create], [stop], [destroy] and
    [commit] all return the error of the configuration lookup and leave the
    host as it was. *)
Theorem unconfigured_binary_runs_nothing (c : container)
    (lists : gmap string (list string)) (imgName : string) (h : Host) :
  configuration h !! "docker:binary" = None →
  let err := foreignError "config" "docker:binary" in
  ip c h = Returned "" (Some err) h ∧
  create c lists h = Returned "" (Some err) h ∧
  stop c h = (Some err, h) ∧
  destroy c h = (Some err, h) ∧
  commit c imgName h = (Some err, h).
Proof.
  intros Hnone. unfold ip, create, stop, destroy, commit, config_GetString.
  by rewrite Hnone.
Qed.

Lemma unconfigured_binary_witness :
  stop aContainer (mkHost ∅ (λ _ _, ("", None)) (decoderOf documents) [])
    = (Some (foreignError "config" "docker:binary"),
       mkHost ∅ (λ _ _, ("", None)) (decoderOf documents) []).
Proof.
  apply (unconfigured_binary_runs_nothing aContainer ∅ "img"
           (mkHost ∅ (λ _ _, ("", None)) (decoderOf documents) [])).
  reflexivity.
Defined.

(** X2. [ip] returns an address without an error exactly when the binary
    is configured, the inspect command succeeds, its output decodes, and
    the decoded document has an object [NetworkSettings] whose [IpAddress]
    is that address, a non-empty string. *)
Theorem ip_returns_address_iff (c : container) (h : Host) (addr : string) :
  (∃ h', ip c h = Returned addr None h') ↔
  ∃ docker result networkSettings,
    config_GetString "docker:binary" h = inl docker ∧
    (inspect c h docker).2 = None ∧
    json_Unmarshal h (inspect c h docker).1 = inl result ∧
    index result "NetworkSettings" = Some (JObject networkSettings) ∧
    networkSettings !! "IpAddress" = Some (JString addr) ∧
    addr ≠ "".
Proof.
  unfold ip, inspect, runCmd. split.
  - intros [h' Hip].
    destruct (config_GetString "docker:binary" h) as [docker|e]; [|done].
    simpl in Hip. exists docker.
    destruct (execute h docker ["inspect"; instanceId c]) as [out [e|]];
      simpl in *; [done|].
    destruct (json_Unmarshal h out) as [result|e]; [|done].
    exists result.
    destruct (index result "NetworkSettings") as [[| | | | |ns]|]; try done.
    exists ns.
    destruct (ns !! "IpAddress") as [[| | |s| |]|]; try done.
    case_decide as Hs; [done|]. injection Hip as <- _. done.
  - intros (docker & result & ns & -> & Herr & Hdec & Hns & Hip & Hne). simpl.
    destruct (execute h docker ["inspect"; instanceId c]) as [out err].
    simpl in *. subst err. rewrite Hdec, Hns, Hip.
    rewrite decide_False by done. by eexists.
Qed.

(** X3. [ip] returns the empty address exactly when it returns an error:
    an address handed back without an error is never empty. *)
Theorem ip_address_empty_iff_error (c : container) (h h' : Host)
    (addr : string) (err : option error) :
  ip c h = Returned addr err h' →
  (addr = "" ↔ is_Some err).
Proof.
  unfold ip, runCmd.
  destruct (config_GetString "docker:binary" h) as [docker|e]; simpl.
  2:{ intros [= <- <- _]. split; [by eexists|done]. }
  destruct (execute h docker ["inspect"; instanceId c]) as [out [e|]]; simpl.
  { intros [= <- <- _]. split; [by eexists|done]. }
  destruct (json_Unmarshal h out) as [result|e].
  2:{ intros [= <- <- _]. split; [by eexists|done]. }
  destruct (index result "NetworkSettings") as [[| | | | |ns]|]; try done;
    try (intros [= <- <- _]; split; [by eexists|done]).
  destruct (ns !! "IpAddress") as [[| | |s| |]|]; try done.
  case_decide as Hs.
  - intros [= <- <- _]. split; [by eexists|done].
  - intros [= <- <- _]. split; [done|by intros []%is_Some_None].
Qed.

Lemma ip_address_empty_iff_error_witness :
  "10.10.10.10" = "" ↔ is_Some (@None error).
Proof.
  apply (ip_address_empty_iff_error aContainer
           (hostAnswering "{NetworkSettings:{IpAddress:10.10.10.10}}" None)
           (hostAfter (ip aContainer
              (hostAnswering "{NetworkSettings:{IpAddress:10.10.10.10}}" None)))).
  reflexivity.
Defined.

(** X4. [ip] panics exactly when the output of a successful inspect decodes
    to a document whose [NetworkSettings] is neither missing, nor null, nor
    an object with a string [IpAddress]. *)
Theorem ip_panics_iff (c : container) (h : Host) :
  (∃ h', ip c h = Panic h') ↔
  ∃ docker result v,
    config_GetString "docker:binary" h = inl docker ∧
    (inspect c h docker).2 = None ∧
    json_Unmarshal h (inspect c h docker).1 = inl result ∧
    index result "NetworkSettings" = Some v ∧
    v ≠ JNull ∧
    (∀ networkSettings s,
       v = JObject networkSettings →
       networkSettings !! "IpAddress" ≠ Some (JString s)).
Proof.
  unfold ip, inspect, runCmd. split.
  - intros [h' Hip].
    destruct (config_GetString "docker:binary" h) as [docker|e]; [|done].
    simpl in Hip. exists docker.
    destruct (execute h docker ["inspect"; instanceId c]) as [out [e|]];
      simpl in *; [done|].
    destruct (json_Unmarshal h out) as [result|e]; [|done].
    exists result.
    destruct (index result "NetworkSettings") as [v|]; [|done].
    exists v. split_and!; try done.
    + by intros ->.
    + intros ns s -> Hs. rewrite Hs in Hip. by case_decide.
  - intros (docker & result & v & -> & Herr & Hdec & Hns & Hnull & Hobj). simpl.
    destruct (execute h docker ["inspect"; instanceId c]) as [out err].
    simpl in *. subst err. rewrite Hdec, Hns.
    destruct v as [| | | | |ns]; try done; try by eexists.
    destruct (ns !! "IpAddress") as [[| | |s| |]|] eqn:Hip; try by eexists.
    by destruct (Hobj ns s).
Qed.

(** X5. [create] never panics, and the instance identifier it returns holds
    no newline, whatever the command printed and whether or not it
    failed. *)
Theorem create_id_has_no_newline (c : container)
    (lists : gmap string (list string)) (h : Host) :
  ∃ id err h', create c lists h = Returned id err h' ∧ newline ∉ chars id.
Proof.
  unfold create, runCmd.
  destruct (config_GetString "docker:binary" h) as [docker|e];
    [|eexists _, _, _; split; [done|by intros ?%elem_of_nil]].
  destruct (config_GetString "docker:image" h) as [template|e];
    [|eexists _, _, _; split; [done|by intros ?%elem_of_nil]].
  destruct (config_GetString "docker:cmd:bin" h) as [cmd|e];
    [|eexists _, _, _; split; [done|by intros ?%elem_of_nil]].
  destruct (config_GetList "docker:cmd:args" lists) as [args|e];
    [|eexists _, _, _; split; [done|by intros ?%elem_of_nil]].
  simpl. destruct (execute h docker _) as [out err].
  eexists _, _, _. split; [done|]. apply strings_Replace_removes.
Qed.

(** X6. With its four settings present, [create] runs the binary once, on
    [run -d], the image, the command and then the configured arguments; it
    returns what the command printed without its newlines together with the
    error of the command, also when the command fails. *)
Theorem create_runs_configured_command (c : container)
    (lists : gmap string (list string)) (h : Host)
    (docker template cmd : string) (args : list string) :
  configuration h !! "docker:binary" = Some docker →
  configuration h !! "docker:image" = Some template →
  configuration h !! "docker:cmd:bin" = Some cmd →
  lists !! "docker:cmd:args" = Some args →
  let line := ("run" :: "-d" :: template :: cmd :: args) in
  let id := strings_Replace (execute h docker line).1 newline "" in
  ∃ h', create c lists h = Returned id (execute h docker line).2 h' ∧
        logs h' = (logs h ++ [commandLine docker line;
                              ("docker instanceId=%s", [id])])%list ∧
        (newline ∉ chars (execute h docker line).1 →
         id = (execute h docker line).1).
Proof.
  intros Hb Hi Hc Ha. cbv zeta.
  unfold create, config_GetString, config_GetList, runCmd.
  rewrite Hb, Hi, Hc, Ha. simpl.
  destruct (execute h docker _) as [out err]. simpl.
  eexists. split; [done|]. split.
  - simpl. by rewrite <-app_assoc.
  - apply strings_Replace_absent.
Qed.

Lemma create_runs_configured_command_witness :
  ∃ h', create aContainer configuredLists
          (configuredHost ("c0ffee" +:+ String newline "")
             (Some (foreignError "exec" "exit status 125")))
        = Returned "c0ffee" (Some (foreignError "exec" "exit status 125")) h'.
Proof.
  edestruct (create_runs_configured_command aContainer configuredLists
               (configuredHost ("c0ffee" +:+ String newline "")
                  (Some (foreignError "exec" "exit status 125"))))
    as (h' & Hrun & _).
  - vm_compute. reflexivity.
  - vm_compute. reflexivity.
  - vm_compute. reflexivity.
  - vm_compute. reflexivity.
  - exists h'. exact Hrun.
Defined.

(** X7. With the binary configured, [stop] and [destroy] run the binary
    once, on [stop] resp. [rm] and the instance identifier, and return the
    error of the command unchanged, [nil] exactly when the command
    succeeds; with the registry user configured as well, so does [commit],
    on [commit], the identifier and the image name prefixed by the user and
    a slash. [start] returns [nil] and leaves the host as it was. *)
Theorem stop_destroy_commit_return_command_error (c : container)
    (imgName : string) (h : Host) (docker : string) :
  configuration h !! "docker:binary" = Some docker →
  (stop c h).1 = (execute h docker ["stop"; instanceId c]).2 ∧
  commandLine docker ["stop"; instanceId c] ∈ logs (stop c h).2 ∧
  (destroy c h).1 = (execute h docker ["rm"; instanceId c]).2 ∧
  commandLine docker ["rm"; instanceId c] ∈ logs (destroy c h).2 ∧
  (∀ registryUser,
     configuration h !! "docker:registry-user" = Some registryUser →
     let line := ["commit"; instanceId c; registryUser +:+ "/" +:+ imgName] in
     (commit c imgName h).1 = (execute h docker line).2 ∧
     commandLine docker line ∈ logs (commit c imgName h).2) ∧
  (configuration h !! "docker:registry-user" = None →
     commit c imgName h = (Some (foreignError "config" "docker:registry-user"), h)) ∧
  start c h = (None, h).
Proof.
  intros Hb. unfold stop, destroy, commit, config_GetString, runCmd.
  rewrite Hb. simpl. split_and!.
  - by destruct (execute h docker _).
  - destruct (execute h docker _). simpl.
    rewrite !elem_of_app. left. right. by left.
  - by destruct (execute h docker _).
  - destruct (execute h docker _). simpl.
    rewrite !elem_of_app. right. by left.
  - intros registryUser Hu. rewrite Hu. simpl.
    destruct (execute h docker _) as [out [e|]]; simpl.
    + split; [done|]. rewrite !elem_of_app. left. right. by left.
    + split; [done|]. rewrite !elem_of_app. right. by left.
  - by intros ->.
  - done.
Qed.

Lemma stop_destroy_commit_witness :
  (commit aContainer "myapp"
     (configuredHost "" (Some (foreignError "exec" "exit status 1")))).1
  = Some (foreignError "exec" "exit status 1").
Proof.
  destruct (stop_destroy_commit_return_command_error aContainer "myapp"
              (configuredHost "" (Some (foreignError "exec" "exit status 1")))
              "/usr/bin/docker") as (_ & _ & _ & _ & Hcommit & _).
  - vm_compute. reflexivity.
  - destruct (Hcommit "tsuru") as [Herr _].
    + vm_compute. reflexivity.
    + exact Herr.
Defined.

End DockerProofs.
